(** * Peloton bridge: plan executor

    A shallow embedding of [src/backend/bridge/dml/executor/plan_executor.cpp]:
    [BuildExecutorTree], [CleanExecutorTree], [PlanExecutor::AddMaterialization]
    and [PlanExecutor::ExecutePlan].

    Executors live in an explicit store and are referred to by address, because
    the C++ code builds the tree by mutating executors through pointers that
    are held in several places at once ([root->AddChild(child_executor)] is
    followed by further mutation of [child_executor]).  Faults of the C++
    program (null dereference, use of a deleted executor, failed [assert]) are
    results of the model, so that a theorem can say that they do or do not
    happen.  The two unbounded constructs, the [for (;;)] loop of
    [ExecutePlan] and the recursion of [CleanExecutorTree] along pointers,
    take a bound on their iterations; running out of it is a fault of its
    own, and the results say which bound suffices.

    Layout: the embedding of the source; the vocabulary of the statements;
    worked examples; the facts. *)

From stdpp Require Import base option list gmap strings.

Set Warnings "-register-all".
Set Default Proof Using "Type".

(** ** Outcomes and the state-and-fault monad *)

Inductive Fault : Type :=
| NullDereference     (* a member function is called through [nullptr] *)
| InvalidPointer      (* an executor is used or deleted after its deletion *)
| AssertionFailure    (* an [assert] does not hold *)
| OutOfFuel.          (* the model's bound on loop iterations is exhausted *)

Inductive Outcome (A : Type) : Type :=
| Done (a : A)
| Crash (f : Fault).
Arguments Done {A} a.
Arguments Crash {A} f.

Definition M (S A : Type) : Type := S → Outcome (A * S).

Definition ret {S A : Type} (a : A) : M S A := λ s, Done (a, s).

Definition bind {S A B : Type} (m : M S A) (k : A → M S B) : M S B :=
  λ s, match m s with
       | Done (a, s') => k a s'
       | Crash f => Crash f
       end.

Definition crash {S A : Type} (f : Fault) : M S A := λ _, Crash f.

Definition get {S : Type} : M S S := λ s, Done (s, s).

Definition modify {S : Type} (f : S → S) : M S unit := λ s, Done (tt, f s).

Notation "'let*' x ':=' m 'in' k" := (bind m (λ x, k))
  (at level 10, x name, m at level 100, k at level 200,
   format "'[v' 'let*'  x  ':='  m  'in' '/' k ']'").

Notation "m ';;;' k" := (bind m (λ _, k))
  (at level 100, k at level 200, right associativity,
   format "'[v' m ';;;' '/' k ']'").

Section monadic_loops.
Context {S A B : Type}.

(** [for (auto x : xs) acc = body(acc, x);] *)
Fixpoint for_each_acc (body : B → A → M S B) (xs : list A) (acc : B) : M S B :=
  match xs with
  | [] => ret acc
  | x :: xs' => let* acc' := body acc x in for_each_acc body xs' acc'
  end.

(** [for (auto x : xs) body(x);] *)
Fixpoint for_each (body : A → M S unit) (xs : list A) : M S unit :=
  match xs with
  | [] => ret tt
  | x :: xs' => body x ;;; for_each body xs'
  end.
End monadic_loops.

(** ** Plans *)

(** The plan node tags that the source names.  The enumeration itself is
    declared in [backend/common/types.h]; every enumerator that the source does
    not name is a [PLAN_NODE_TYPE_OTHER]. *)
Inductive PlanNodeType : Type :=
| PLAN_NODE_TYPE_INVALID
| PLAN_NODE_TYPE_SEQSCAN
| PLAN_NODE_TYPE_INDEXSCAN
| PLAN_NODE_TYPE_INSERT
| PLAN_NODE_TYPE_DELETE
| PLAN_NODE_TYPE_UPDATE
| PLAN_NODE_TYPE_LIMIT
| PLAN_NODE_TYPE_NESTLOOP
| PLAN_NODE_TYPE_MERGEJOIN
| PLAN_NODE_TYPE_PROJECTION
| PLAN_NODE_TYPE_MATERIALIZE
| PLAN_NODE_TYPE_AGGREGATE_V2
| PLAN_NODE_TYPE_ORDERBY
| PLAN_NODE_TYPE_OTHER (code : N).

Global Instance PlanNodeType_eq_dec : EqDecision PlanNodeType.
Proof. solve_decision. Defined.

(** A value of type [planner::AbstractPlan *]: the plan is immutable, so a
    pointer to a node is modelled by the tree below it, and [null_plan] is
    [nullptr]. *)
Inductive AbstractPlan : Type :=
| null_plan
| PlanNode (plan_node_type : PlanNodeType) (children : list AbstractPlan).

(** Number of plan nodes ([nullptr] is not a node). *)
Fixpoint plan_size (plan : AbstractPlan) : nat :=
  match plan with
  | null_plan => 0
  | PlanNode _ children => S (foldr (λ child n, plan_size child + n) 0 children)
  end.

Definition plans_size (plans : list AbstractPlan) : nat :=
  foldr (λ child n, plan_size child + n) 0 plans.

(** *** [PlanExecutor::PrintPlan] (lines 42-56)

    [LOG_TRACE("%s->Plan Type :: %d ", prefix, type)] is modelled by the line
    it is given: the prefix and the tag.  The function returns the lines in
    the order in which they are logged. *)
Fixpoint PrintPlan (plan : AbstractPlan) (prefix : string)
  : list (string * PlanNodeType) :=
  match plan with
  | null_plan => []
  | PlanNode plan_node_type children =>
      let prefix := prefix +:+ "  " in
      (prefix, plan_node_type)
      :: (children ≫= λ child, PrintPlan child prefix)
  end.

(** ** Executors and their store *)

Inductive ExecutorKind : Type :=
| SeqScanExecutor
| IndexScanExecutor
| InsertExecutor
| DeleteExecutor
| UpdateExecutor
| LimitExecutor
| NestedLoopJoinExecutor
| MergeJoinExecutor
| ProjectionExecutor
| MaterializationExecutor
| AggregateExecutor
| OrderByExecutor.

(** A value of type [executor::AbstractExecutor *] (or
    [executor::ExecutorContext *]): [None] is [nullptr], [Some a] is the
    address [a] in the store. *)
Abbreviation Ptr := (option nat).

(** The fields of [executor::AbstractExecutor] that this file reads and
    writes: the dynamic type, the constructor's two arguments and the child
    vector. *)
Record AbstractExecutor : Type := mkExecutor {
  executor_kind : ExecutorKind;
  node_ : AbstractPlan;
  executor_context_ : Ptr;
  children_ : list Ptr
}.

(** [e] with its child vector replaced. *)
Definition with_children (e : AbstractExecutor) (children : list Ptr)
  : AbstractExecutor :=
  mkExecutor (executor_kind e) (node_ e) (executor_context_ e) children.

Section executor_store.
(** The transaction handle and the parameters are only threaded through. *)
Context {Transaction ParamListInfo ValueArray : Type}.
Variable BuildParams : ParamListInfo → ValueArray.

Record ExecutorContext : Type := mkContext {
  transaction_ : Transaction;
  params_ : ValueArray
}.

(** [executors !! a] is [Some (Some e)] for a live executor, [Some None]
    for a deleted one and [None] for an address never handed out.
    [deleted] lists the addresses in the order of their [delete]. *)
Record Store : Type := mkStore {
  executors : list (option AbstractExecutor);
  contexts : list ExecutorContext;
  deleted : list nat
}.

(** [new executor::ExecutorContext(txn, params)] *)
Definition new_ExecutorContext (txn : Transaction) (params : ValueArray)
  : M Store Ptr :=
  λ s, Done (Some (length (contexts s)),
             mkStore (executors s) (contexts s ++ [mkContext txn params])
                     (deleted s)).

(** [new executor::K(plan, executor_context)] *)
Definition new_Executor (K : ExecutorKind) (plan : AbstractPlan)
    (executor_context : Ptr) : M Store Ptr :=
  λ s, Done (Some (length (executors s)),
             mkStore (executors s ++ [Some (mkExecutor K plan executor_context [])])
                     (contexts s) (deleted s)).

(** Dereference of an executor pointer. *)
Definition deref (p : Ptr) : M Store AbstractExecutor :=
  λ s, match p with
       | None => Crash NullDereference
       | Some a => match executors s !! a with
                   | Some (Some e) => Done (e, s)
                   | _ => Crash InvalidPointer
                   end
       end.

Definition store_executor (a : nat) (e : option AbstractExecutor)
  : M Store unit :=
  modify (λ s, mkStore (<[a := e]> (executors s)) (contexts s) (deleted s)).

(** [p->AddChild(child)]: [children_.push_back(child)] *)
Definition AddChild (p child : Ptr) : M Store unit :=
  let* e := deref p in
  match p with
  | Some a =>
      store_executor a (Some (with_children e (children_ e ++ [child])))
  | None => crash NullDereference
  end.

(** [p->GetChildren()] *)
Definition GetChildren (p : Ptr) : M Store (list Ptr) :=
  let* e := deref p in ret (children_ e).

(** [p->GetRawNode()] *)
Definition GetRawNode (p : Ptr) : M Store AbstractPlan :=
  let* e := deref p in ret (node_ e).

(** [plan->GetPlanNodeType()] *)
Definition GetPlanNodeType (plan : AbstractPlan) : M Store PlanNodeType :=
  match plan with
  | null_plan => crash NullDereference
  | PlanNode plan_node_type _ => ret plan_node_type
  end.

(** [delete p] for a non-null [p] *)
Definition delete_executor (p : Ptr) : M Store unit :=
  let* _ := deref p in
  match p with
  | Some a =>
      modify (λ s, mkStore (<[a := None]> (executors s)) (contexts s)
                           (deleted s ++ [a]))
  | None => crash NullDereference
  end.

(** *** [BuildExecutorTree] (lines 65-158) *)
Fixpoint BuildExecutorTree (root : Ptr) (plan : AbstractPlan)
    (param_list : ParamListInfo) (txn : Transaction) {struct plan}
  : M Store Ptr :=
  match plan with
  | null_plan => ret root
  | PlanNode plan_node_type children =>
      let params := BuildParams param_list in
      let* executor_context := new_ExecutorContext txn params in
      let* child_executor :=
        match plan_node_type with
        | PLAN_NODE_TYPE_INVALID => ret None
        | PLAN_NODE_TYPE_SEQSCAN =>
            new_Executor SeqScanExecutor plan executor_context
        | PLAN_NODE_TYPE_INDEXSCAN =>
            new_Executor IndexScanExecutor plan executor_context
        | PLAN_NODE_TYPE_INSERT =>
            new_Executor InsertExecutor plan executor_context
        | PLAN_NODE_TYPE_DELETE =>
            new_Executor DeleteExecutor plan executor_context
        | PLAN_NODE_TYPE_UPDATE =>
            new_Executor UpdateExecutor plan executor_context
        | PLAN_NODE_TYPE_LIMIT =>
            new_Executor LimitExecutor plan executor_context
        | PLAN_NODE_TYPE_NESTLOOP =>
            new_Executor NestedLoopJoinExecutor plan executor_context
        | PLAN_NODE_TYPE_MERGEJOIN =>
            new_Executor MergeJoinExecutor plan executor_context
        | PLAN_NODE_TYPE_PROJECTION =>
            new_Executor ProjectionExecutor plan executor_context
        | PLAN_NODE_TYPE_MATERIALIZE =>
            new_Executor MaterializationExecutor plan executor_context
        | PLAN_NODE_TYPE_AGGREGATE_V2 =>
            new_Executor AggregateExecutor plan executor_context
        | PLAN_NODE_TYPE_ORDERBY =>
            new_Executor OrderByExecutor plan executor_context
        | PLAN_NODE_TYPE_OTHER _ => ret None
        end in
      let* root :=
        match child_executor with
        | Some _ =>
            match root with
            | Some _ => AddChild root child_executor ;;; ret root
            | None => ret child_executor
            end
        | None => ret root
        end in
      let* _ :=
        for_each_acc
          (λ child_executor child,
             BuildExecutorTree child_executor child param_list txn)
          children child_executor in
      ret root
  end.

(** *** [CleanExecutorTree] (lines 165-177)

    The recursion follows pointers in the store, so the model bounds its
    depth by [fuel]. *)
Fixpoint CleanExecutorTree (fuel : nat) (root : Ptr) : M Store unit :=
  match root with
  | None => ret tt
  | Some _ =>
      match fuel with
      | O => crash OutOfFuel
      | S fuel' =>
          let* children := GetChildren root in
          for_each (λ child, CleanExecutorTree fuel' child) children ;;;
          delete_executor root
      end
  end.

(** *** [PlanExecutor::AddMaterialization] (lines 185-209) *)
Definition AddMaterialization (root : Ptr) : M Store Ptr :=
  match root with
  | None => ret root
  | Some _ =>
      let* raw_node := GetRawNode root in
      let* type := GetPlanNodeType raw_node in
      match type with
      | PLAN_NODE_TYPE_MERGEJOIN
      | PLAN_NODE_TYPE_NESTLOOP
      | PLAN_NODE_TYPE_SEQSCAN
      | PLAN_NODE_TYPE_INDEXSCAN
      | PLAN_NODE_TYPE_LIMIT =>
          let* new_root := new_Executor MaterializationExecutor null_plan None in
          AddChild new_root root ;;;
          ret new_root
      | _ => ret root
      end
  end.

End executor_store.

Arguments ExecutorContext : clear implicits.
Arguments Store : clear implicits.

(** ** Transactions *)

(** [Result] is declared in [backend/common/types.h]; the source names
    [RESULT_SUCCESS] and [RESULT_FAILURE] and has a [default] branch for the
    rest. *)
Inductive Result : Type :=
| RESULT_SUCCESS
| RESULT_FAILURE
| RESULT_OTHER (code : N).

(** [TransactionId] is the host's 32-bit transaction identifier; a
    [concurrency::Transaction *] is modelled by the identifier under which the
    manager knows the transaction, [None] being [nullptr]. *)
Abbreviation TransactionId := N.
Abbreviation TransactionPtr := (option N).

(** What the executor asks of the transaction manager, in call order. *)
Inductive TxnEvent : Type :=
| GetPGTransaction_call (txn_id : TransactionId)
| StartPGTransaction_call (txn_id : TransactionId)
| SetResult_call (txn_id : TransactionId) (result : Result)
| CommitTransaction_call (txn_id : TransactionId)
| AbortTransaction_call (txn_id : TransactionId).

(** Modelled from the spec: [concurrency::TransactionManager] and
    [concurrency::Transaction] ([backend/concurrency/transaction_manager.h]) are
    not among the sources.  The spec's transaction boundary interface is
    [lookup], [begin], [commit], [abort], [getResult] and [setResult]; a
    transaction carries a Result, Success until an operator or the driver
    records otherwise, and its Result stays readable after the commit or abort
    request (the driver reports it last).  [txn_events] is the trace of the
    requests made. *)
Record TransactionManager : Type := mkTransactionManager {
  txn_table : gmap N Result;
  txn_events : list TxnEvent
}.

(** ** Tiles, tuples and the caller's status *)

Section tiles.
Context {Tuple Slot : Type}.

(** Modelled from the spec: a base tile ([storage::Tile]) holds rows in
    storage order, and a logical tile ([executor::LogicalTile]) refers to
    base tiles by column offset; neither class is among the sources. *)
Record Tile : Type := mkTile {
  tile_tuples : list Tuple
}.

Record LogicalTile : Type := mkLogicalTile {
  base_tiles : list Tile
}.

(** [tile->GetBaseTile(offset)], [None] being [nullptr]. *)
Definition GetBaseTile (tile : LogicalTile) (offset : nat) : option Tile :=
  base_tiles tile !! offset.

(** The fields of [Peloton_Status] that [ExecutePlan] writes. *)
Record Peloton_Status : Type := mkStatus {
  m_result : Result;
  m_result_slots : list Slot
}.

(** The executor member functions called by the driver, with what they
    returned. *)
Inductive ExecutorCall : Type :=
| Init_call (status : bool)
| Execute_call (status : bool)
| GetOutput_call (tile : option LogicalTile).
End tiles.

Arguments Tile : clear implicits.
Arguments LogicalTile : clear implicits.
Arguments Peloton_Status : clear implicits.
Arguments ExecutorCall : clear implicits.

(** ** [PlanExecutor::ExecutePlan] *)

Section plan_executor.
Context {ParamListInfo ValueArray Tuple Slot TupleDesc OpState : Type}.

(** [PlanTransformer::BuildParams] *)
Variable BuildParams : ParamListInfo → ValueArray.

(** [TupleTransformer::GetPostgresTuple], [None] being [nullptr]. *)
Variable GetPostgresTuple : Tuple → TupleDesc → option Slot.

Abbreviation ExecStore := (Store TransactionPtr ValueArray).

(** The executors' member functions ([backend/executor/executors.h]).  They
    see the executor tree, keep a state of their own ([OpState]: storage,
    cursors, buffered tiles) and may record a Result on the transaction of
    their context. *)
Variable executor_Init :
  ExecStore → nat → OpState → Result → bool * OpState * Result.
Variable executor_Execute :
  ExecStore → nat → OpState → Result → bool * OpState * Result.
Variable executor_GetOutput :
  ExecStore → nat → OpState → option (LogicalTile Tuple) * OpState.

Record World : Type := mkWorld {
  store : ExecStore;
  txn_manager : TransactionManager;
  op_state : OpState;
  executor_calls : list (ExecutorCall Tuple)
}.

(** Run a computation on the executor store inside the world. *)
Definition on_store {A : Type} (m : M ExecStore A) : M World A :=
  λ w, match m (store w) with
       | Done (a, s') =>
           Done (a, mkWorld s' (txn_manager w) (op_state w) (executor_calls w))
       | Crash f => Crash f
       end.

Definition txn_event (ev : TxnEvent) : M World unit :=
  modify (λ w, mkWorld (store w)
                 (mkTransactionManager (txn_table (txn_manager w))
                    (txn_events (txn_manager w) ++ [ev]))
                 (op_state w) (executor_calls w)).

Definition executor_call (c : ExecutorCall Tuple) : M World unit :=
  modify (λ w, mkWorld (store w) (txn_manager w) (op_state w)
                 (executor_calls w ++ [c])).

Definition write_result (txn_id : TransactionId) (r : Result) : M World unit :=
  modify (λ w, mkWorld (store w)
                 (mkTransactionManager (<[txn_id := r]> (txn_table (txn_manager w)))
                    (txn_events (txn_manager w)))
                 (op_state w) (executor_calls w)).

Definition write_op_state (o : OpState) : M World unit :=
  modify (λ w, mkWorld (store w) (txn_manager w) o (executor_calls w)).

(** [txn_manager.GetPGTransaction(txn_id)] *)
Definition GetPGTransaction (txn_id : TransactionId) : M World TransactionPtr :=
  txn_event (GetPGTransaction_call txn_id) ;;;
  let* w := get in
  match txn_table (txn_manager w) !! txn_id with
  | Some _ => ret (Some txn_id)
  | None => ret None
  end.

(** [txn_manager.StartPGTransaction(txn_id)] *)
Definition StartPGTransaction (txn_id : TransactionId) : M World TransactionPtr :=
  txn_event (StartPGTransaction_call txn_id) ;;;
  write_result txn_id RESULT_SUCCESS ;;;
  ret (Some txn_id).

(** [txn->GetResult()] *)
Definition GetResult (txn : TransactionPtr) : M World Result :=
  match txn with
  | None => crash NullDereference
  | Some txn_id =>
      let* w := get in
      match txn_table (txn_manager w) !! txn_id with
      | Some r => ret r
      | None => crash InvalidPointer
      end
  end.

(** [txn->SetResult(r)] *)
Definition SetResult (txn : TransactionPtr) (r : Result) : M World unit :=
  let* _ := GetResult txn in
  match txn with
  | Some txn_id => txn_event (SetResult_call txn_id r) ;;; write_result txn_id r
  | None => crash NullDereference
  end.

(** [txn_manager.CommitTransaction(txn)] *)
Definition CommitTransaction (txn : TransactionPtr) : M World unit :=
  match txn with
  | Some txn_id => txn_event (CommitTransaction_call txn_id)
  | None => crash NullDereference
  end.

(** [txn_manager.AbortTransaction(txn)] *)
Definition AbortTransaction (txn : TransactionPtr) : M World unit :=
  match txn with
  | Some txn_id => txn_event (AbortTransaction_call txn_id)
  | None => crash NullDereference
  end.

(** [assert(p)] on a pointer *)
Definition assert_ptr {A : Type} (p : option A) : M World unit :=
  match p with
  | Some _ => ret tt
  | None => crash AssertionFailure
  end.

(** A call of an executor member function that may record a Result on
    [txn]. *)
Definition call_with_result
    (f : ExecStore → nat → OpState → Result → bool * OpState * Result)
    (executor_tree : Ptr) (txn : TransactionPtr) : M World bool :=
  let* _ := on_store (deref executor_tree) in
  let* r := GetResult txn in
  let* w := get in
  match executor_tree, txn with
  | Some a, Some txn_id =>
      let '(status, o, r') := f (store w) a (op_state w) r in
      write_op_state o ;;;
      write_result txn_id r' ;;;
      ret status
  | _, _ => crash NullDereference
  end.

(** [executor_tree->Init()] *)
Definition Init (executor_tree : Ptr) (txn : TransactionPtr) : M World bool :=
  let* status := call_with_result executor_Init executor_tree txn in
  executor_call (Init_call status) ;;;
  ret status.

(** [executor_tree->Execute()] *)
Definition Execute (executor_tree : Ptr) (txn : TransactionPtr) : M World bool :=
  let* status := call_with_result executor_Execute executor_tree txn in
  executor_call (Execute_call status) ;;;
  ret status.

(** [executor_tree->GetOutput()] *)
Definition GetOutput (executor_tree : Ptr) : M World (option (LogicalTile Tuple)) :=
  let* _ := on_store (deref executor_tree) in
  let* w := get in
  match executor_tree with
  | Some a =>
      let '(tile, o) := executor_GetOutput (store w) a (op_state w) in
      write_op_state o ;;;
      executor_call (GetOutput_call tile) ;;;
      ret tile
  | None => crash NullDereference
  end.

(** Lines 289-296: [while (tile_itr.Next(tuple))] over the rows of the base
    tile, [lappend]ing every slot that is not [nullptr]. *)
Fixpoint collect_slots (tile_itr : list Tuple) (tuple_desc : TupleDesc)
    (slots : list Slot) : list Slot :=
  match tile_itr with
  | [] => slots
  | tuple :: tile_itr' =>
      let slot := GetPostgresTuple tuple tuple_desc in
      match slot with
      | Some slot => collect_slots tile_itr' tuple_desc (slots ++ [slot])
      | None => collect_slots tile_itr' tuple_desc slots
      end
  end.

(** Lines 264-300: the [for (;;)] loop.  [fuel] bounds the number of
    iterations. *)
Fixpoint pull_loop (fuel : nat) (executor_tree : Ptr) (txn : TransactionPtr)
    (tuple_desc : TupleDesc) (slots : list Slot) : M World (list Slot) :=
  match fuel with
  | O => crash OutOfFuel
  | S fuel' =>
      let* status := Execute executor_tree txn in
      if negb status then ret slots
      else
        let* tile := GetOutput executor_tree in
        match tile with
        | None => pull_loop fuel' executor_tree txn tuple_desc slots
        | Some tile =>
            let base_tile := GetBaseTile tile 0 in
            assert_ptr base_tile ;;;
            match base_tile with
            | Some base_tile =>
                let slots :=
                  collect_slots (tile_tuples base_tile) tuple_desc slots in
                pull_loop fuel' executor_tree txn tuple_desc slots
            | None => crash AssertionFailure
            end
        end
  end.

(** Lines 306-332: the code under the [cleanup] label. *)
Definition cleanup (fuel : nat) (single_statement_txn init_failure : bool)
    (txn : TransactionPtr) (executor_tree : Ptr)
    (pstatus : Peloton_Status Slot) : M World (Peloton_Status Slot) :=
  (if single_statement_txn || init_failure then
     let* status := GetResult txn in
     match status with
     | RESULT_SUCCESS => CommitTransaction txn
     | _ => AbortTransaction txn
     end
   else ret tt) ;;;
  on_store (CleanExecutorTree fuel executor_tree) ;;;
  let* r := GetResult txn in
  ret (mkStatus r (m_result_slots pstatus)).

(** Lines 229-247: the transaction is looked up or started, the executor
    tree is built and the materialization is added.  Returns
    [single_statement_txn], [txn] and [executor_tree]. *)
Definition ExecutePlan_setup (plan : AbstractPlan) (param_list : ParamListInfo)
    (txn_id : TransactionId) : M World (bool * TransactionPtr * Ptr) :=
  let* found := GetPGTransaction txn_id in
  let* txn :=
    match found with
    | None => StartPGTransaction txn_id
    | Some _ => ret found
    end in
  let single_statement_txn :=
    match found with None => true | Some _ => false end in
  assert_ptr txn ;;;
  let* executor_tree :=
    on_store (BuildExecutorTree BuildParams None plan param_list txn) in
  let* executor_tree := on_store (AddMaterialization executor_tree) in
  ret (single_statement_txn, txn, executor_tree).

(** Lines 252-303, and the jump to [cleanup]. *)
Definition ExecutePlan_run (fuel : nat) (single_statement_txn : bool)
    (txn : TransactionPtr) (executor_tree : Ptr) (tuple_desc : TupleDesc)
    (pstatus : Peloton_Status Slot) : M World (Peloton_Status Slot) :=
  let* status := Init executor_tree txn in
  if negb status then
    SetResult txn RESULT_FAILURE ;;;
    cleanup fuel single_statement_txn true txn executor_tree pstatus
  else
    let* slots := pull_loop fuel executor_tree txn tuple_desc [] in
    let pstatus := mkStatus (m_result pstatus) slots in
    cleanup fuel single_statement_txn false txn executor_tree pstatus.

(** Lines 215-333.  [pstatus] is the caller's status on entry, the value
    returned is the status on return.  [fuel] bounds the pull loop and the
    depth of the teardown. *)
Definition ExecutePlan (fuel : nat) (plan : AbstractPlan)
    (param_list : ParamListInfo) (tuple_desc : TupleDesc)
    (pstatus : Peloton_Status Slot) (txn_id : TransactionId)
  : M World (Peloton_Status Slot) :=
  match plan with
  | null_plan => ret pstatus
  | PlanNode _ _ =>
      let* setup := ExecutePlan_setup plan param_list txn_id in
      let '(single_statement_txn, txn, executor_tree) := setup in
      ExecutePlan_run fuel single_statement_txn txn executor_tree tuple_desc
        pstatus
  end.

End plan_executor.

(** ** Specification vocabulary *)

(** The executor class that [BuildExecutorTree]'s [switch] constructs for a
    tag, [None] for the two branches that only log an error. *)
Definition executor_for (plan_node_type : PlanNodeType) : option ExecutorKind :=
  match plan_node_type with
  | PLAN_NODE_TYPE_INVALID => None
  | PLAN_NODE_TYPE_SEQSCAN => Some SeqScanExecutor
  | PLAN_NODE_TYPE_INDEXSCAN => Some IndexScanExecutor
  | PLAN_NODE_TYPE_INSERT => Some InsertExecutor
  | PLAN_NODE_TYPE_DELETE => Some DeleteExecutor
  | PLAN_NODE_TYPE_UPDATE => Some UpdateExecutor
  | PLAN_NODE_TYPE_LIMIT => Some LimitExecutor
  | PLAN_NODE_TYPE_NESTLOOP => Some NestedLoopJoinExecutor
  | PLAN_NODE_TYPE_MERGEJOIN => Some MergeJoinExecutor
  | PLAN_NODE_TYPE_PROJECTION => Some ProjectionExecutor
  | PLAN_NODE_TYPE_MATERIALIZE => Some MaterializationExecutor
  | PLAN_NODE_TYPE_AGGREGATE_V2 => Some AggregateExecutor
  | PLAN_NODE_TYPE_ORDERBY => Some OrderByExecutor
  | PLAN_NODE_TYPE_OTHER _ => None
  end.

(** The tag of an executor class: the tag at which [BuildExecutorTree]
    constructs an executor of that class. *)
Definition executor_tag (kind : ExecutorKind) : PlanNodeType :=
  match kind with
  | SeqScanExecutor => PLAN_NODE_TYPE_SEQSCAN
  | IndexScanExecutor => PLAN_NODE_TYPE_INDEXSCAN
  | InsertExecutor => PLAN_NODE_TYPE_INSERT
  | DeleteExecutor => PLAN_NODE_TYPE_DELETE
  | UpdateExecutor => PLAN_NODE_TYPE_UPDATE
  | LimitExecutor => PLAN_NODE_TYPE_LIMIT
  | NestedLoopJoinExecutor => PLAN_NODE_TYPE_NESTLOOP
  | MergeJoinExecutor => PLAN_NODE_TYPE_MERGEJOIN
  | ProjectionExecutor => PLAN_NODE_TYPE_PROJECTION
  | MaterializationExecutor => PLAN_NODE_TYPE_MATERIALIZE
  | AggregateExecutor => PLAN_NODE_TYPE_AGGREGATE_V2
  | OrderByExecutor => PLAN_NODE_TYPE_ORDERBY
  end.

Definition head_executor (plan : AbstractPlan) : option ExecutorKind :=
  match plan with
  | null_plan => None
  | PlanNode plan_node_type _ => executor_for plan_node_type
  end.

(** Every node of the plan has a tag for which an executor is constructed
    (and no child pointer is [nullptr]). *)
Fixpoint all_supported (plan : AbstractPlan) : bool :=
  match plan with
  | null_plan => false
  | PlanNode plan_node_type children =>
      bool_decide (is_Some (executor_for plan_node_type))
      && forallb all_supported children
  end.

(** No node of the plan has such a tag. *)
Fixpoint none_supported (plan : AbstractPlan) : bool :=
  match plan with
  | null_plan => true
  | PlanNode plan_node_type children =>
      bool_decide (executor_for plan_node_type = None)
      && forallb none_supported children
  end.

(** The number of plan nodes for which an executor is constructed. *)
Fixpoint supported_count (plan : AbstractPlan) : nat :=
  match plan with
  | null_plan => 0
  | PlanNode plan_node_type children =>
      match executor_for plan_node_type with Some _ => 1 | None => 0 end
      + foldr (λ child n, supported_count child + n) 0 children
  end.

(** The number of plan nodes that are reached from the root through nodes
    with a supported tag only. *)
Fixpoint pruned_size (plan : AbstractPlan) : nat :=
  match plan with
  | null_plan => 0
  | PlanNode plan_node_type children =>
      match executor_for plan_node_type with
      | Some _ => S (foldr (λ child n, pruned_size child + n) 0 children)
      | None => 0
      end
  end.

(** The number of levels of a plan. *)
Fixpoint plan_height (plan : AbstractPlan) : nat :=
  match plan with
  | null_plan => 0
  | PlanNode _ children =>
      S (foldr (λ child n, plan_height child `max` n) 0 children)
  end.

(** [k] times the two spaces that [PrintPlan] adds per level. *)
Fixpoint indent (k : nat) : string :=
  match k with
  | O => ""
  | S k' => "  " +:+ indent k'
  end.

(** The number of executors that [AddMaterialization] adds above the tree
    compiled for [plan]. *)
Definition materialization_count (plan : AbstractPlan) : nat :=
  match plan with
  | null_plan => 0
  | PlanNode plan_node_type _ =>
      if decide (plan_node_type
                 ∈ [PLAN_NODE_TYPE_MERGEJOIN; PLAN_NODE_TYPE_NESTLOOP;
                    PLAN_NODE_TYPE_SEQSCAN; PLAN_NODE_TYPE_INDEXSCAN;
                    PLAN_NODE_TYPE_LIMIT])
      then 1 else 0
  end.

(** The tags at which [AddMaterialization] wraps the root. *)
Definition materialized_tags : list PlanNodeType :=
  [PLAN_NODE_TYPE_MERGEJOIN; PLAN_NODE_TYPE_NESTLOOP; PLAN_NODE_TYPE_SEQSCAN;
   PLAN_NODE_TYPE_INDEXSCAN; PLAN_NODE_TYPE_LIMIT].

(** The [switch] of [AddMaterialization]. *)
Definition needs_materialization (plan_node_type : PlanNodeType) : bool :=
  match plan_node_type with
  | PLAN_NODE_TYPE_MERGEJOIN
  | PLAN_NODE_TYPE_NESTLOOP
  | PLAN_NODE_TYPE_SEQSCAN
  | PLAN_NODE_TYPE_INDEXSCAN
  | PLAN_NODE_TYPE_LIMIT => true
  | _ => false
  end.

(** The executor that [AddMaterialization] constructs over [root]:
    [new executor::MaterializationExecutor(nullptr, nullptr)] with [root] as
    its only child. *)
Definition materialization_over (root : Ptr) : AbstractExecutor :=
  mkExecutor MaterializationExecutor null_plan None [root].

(** An executor tree as it lies in a store: every node with its address and
    its record. *)
Inductive ExecTree : Type :=
| ExecNode (addr : nat) (e : AbstractExecutor) (subtrees : list ExecTree).

Definition tree_addr (t : ExecTree) : nat :=
  match t with ExecNode addr _ _ => addr end.

Definition tree_executor (t : ExecTree) : AbstractExecutor :=
  match t with ExecNode _ e _ => e end.

Definition subtrees (t : ExecTree) : list ExecTree :=
  match t with ExecNode _ _ ts => ts end.

Fixpoint tree_size (t : ExecTree) : nat :=
  match t with
  | ExecNode _ _ ts => S (foldr (λ t' n, tree_size t' + n) 0 ts)
  end.

Fixpoint tree_height (t : ExecTree) : nat :=
  match t with
  | ExecNode _ _ ts => S (foldr (λ t' n, tree_height t' `max` n) 0 ts)
  end.

(** The addresses of a tree, parents first. *)
Fixpoint tree_addrs (t : ExecTree) : list nat :=
  match t with
  | ExecNode addr _ ts => addr :: (ts ≫= tree_addrs)
  end.

(** The addresses of a tree, children first. *)
Fixpoint postorder (t : ExecTree) : list nat :=
  match t with
  | ExecNode addr _ ts => (ts ≫= postorder) ++ [addr]
  end.

(** [tree_in h t]: the store [h] holds the tree [t]: every node's record is
    live at the node's address, and its child vector lists the addresses of
    its subtrees, in order. *)
Fixpoint tree_in (h : list (option AbstractExecutor)) (t : ExecTree) : Prop :=
  match t with
  | ExecNode addr e ts =>
      h !! addr = Some (Some e)
      ∧ children_ e = map (λ t', Some (tree_addr t')) ts
      ∧ foldr (λ t' P, tree_in h t' ∧ P) True ts
  end.

Section children_relations.
Variable R : AbstractPlan → ExecTree → Prop.

(** The subtrees are related to the children one by one, in order. *)
Fixpoint mirror_children (children : list AbstractPlan) (ts : list ExecTree)
    {struct children} : Prop :=
  match children, ts with
  | [], [] => True
  | child :: children', t' :: ts' => R child t' ∧ mirror_children children' ts'
  | _, _ => False
  end.

(** As [mirror_children], except that the children for which no executor is
    constructed ([nullptr], or an unsupported tag) have no subtree. *)
Fixpoint compile_children (children : list AbstractPlan) (ts : list ExecTree)
    {struct children} : Prop :=
  match children with
  | [] => ts = []
  | child :: children' =>
      match head_executor child with
      | None => compile_children children' ts
      | Some _ =>
          match ts with
          | t' :: ts' => R child t' ∧ compile_children children' ts'
          | [] => False
          end
      end
  end.
End children_relations.

(** [mirrors plan t]: the tree [t] has the shape of the plan: the root is the
    executor constructed for the root's tag, it refers back to the plan node,
    it has a context, and the subtrees mirror the plan's children one by one,
    in order. *)
Fixpoint mirrors (plan : AbstractPlan) (t : ExecTree) {struct plan} : Prop :=
  match plan with
  | null_plan => False
  | PlanNode plan_node_type children =>
      executor_for plan_node_type = Some (executor_kind (tree_executor t))
      ∧ node_ (tree_executor t) = plan
      ∧ is_Some (executor_context_ (tree_executor t))
      ∧ mirror_children mirrors children (subtrees t)
  end.

(** [compiles_to plan t]: as [mirrors], except that the subtrees of the plan
    under a child for which no executor is constructed have no counterpart
    in [t]. *)
Fixpoint compiles_to (plan : AbstractPlan) (t : ExecTree) {struct plan} : Prop :=
  match plan with
  | null_plan => False
  | PlanNode plan_node_type children =>
      executor_for plan_node_type = Some (executor_kind (tree_executor t))
      ∧ node_ (tree_executor t) = plan
      ∧ is_Some (executor_context_ (tree_executor t))
      ∧ compile_children compiles_to children (subtrees t)
  end.

(** All addresses of the tree lie in [lo, hi). *)
Definition tree_within (lo hi : nat) (t : ExecTree) : Prop :=
  Forall (λ a, lo ≤ a < hi) (tree_addrs t).

(** [h'] extends [h] and agrees with it on the cells of [h], the one at [p]
    excepted. *)
Definition frame_except (h h' : list (option AbstractExecutor)) (p : Ptr)
  : Prop :=
  length h ≤ length h'
  ∧ ∀ a, a < length h → Some a ≠ p → h' !! a = h !! a.

(** A pointer is null or refers to a live executor. *)
Definition valid_ptr (h : list (option AbstractExecutor)) (p : Ptr) : Prop :=
  match p with
  | None => True
  | Some a => ∃ e, h !! a = Some (Some e)
  end.

(** [h'] has [n] more cells than [h], the new cells hold live executors, and
    the executors that were live in [h] are live in [h']. *)
Definition grown_by (n : nat) (h h' : list (option AbstractExecutor)) : Prop :=
  length h' = length h + n
  ∧ ∀ a, a < length h' →
         valid_ptr h (Some a) ∨ length h ≤ a → valid_ptr h' (Some a).

(** *** The contract of [BuildExecutorTree] *)

Section build_contract.
Context {Transaction ValueArray : Type}.
Implicit Types s : Store Transaction ValueArray.

(** [child_added h h' r n]: from [h] to [h'] the executor at [r] got the
    executor at address [n] as its last child, by one [AddChild]. *)
Definition child_added (h h' : list (option AbstractExecutor)) (r n : nat)
  : Prop :=
  ∃ e, h !! r = Some (Some e)
       ∧ h' !! r = Some (Some (with_children e (children_ e ++ [Some n]))).

(** The result [res] of [BuildExecutorTree(root, plan, ...)] started in [s],
    where [ctx] is the context record constructed per plan node. *)
Definition build_post (root : Ptr) (plan : AbstractPlan)
    (ctx : ExecutorContext Transaction ValueArray) s
    (res : Outcome (Ptr * Store Transaction ValueArray)) : Prop :=
  ∃ root' s',
    res = Done (root', s')
    ∧ contexts s' = contexts s ++ replicate (plan_size plan) ctx
    ∧ deleted s' = deleted s
    ∧ match head_executor plan with
      | None => root' = root ∧ frame_except (executors s) (executors s') None
      | Some _ =>
          frame_except (executors s) (executors s') root
          ∧ ∃ t, tree_addr t = length (executors s)
                 ∧ tree_in (executors s') t
                 ∧ compiles_to plan t
                 ∧ tree_within (length (executors s)) (length (executors s')) t
                 ∧ NoDup (tree_addrs t)
                 ∧ match root with
                   | None => root' = Some (length (executors s))
                   | Some r =>
                       root' = root
                       ∧ child_added (executors s) (executors s') r
                           (length (executors s))
                   end
      end.

(** The result [res] of the loop over the children (lines 152-155) started
    in [s] with [child_executor]. *)
Definition loop_post (child_executor : Ptr) (children : list AbstractPlan)
    (ctx : ExecutorContext Transaction ValueArray) s
    (res : Outcome (Ptr * Store Transaction ValueArray)) : Prop :=
  ∃ child_executor' s',
    res = Done (child_executor', s')
    ∧ contexts s' = contexts s ++ replicate (plans_size children) ctx
    ∧ deleted s' = deleted s
    ∧ frame_except (executors s) (executors s') child_executor
    ∧ valid_ptr (executors s') child_executor'
    ∧ match child_executor with
      | None =>
          child_executor' = None
          ∨ ∃ a, child_executor' = Some a ∧ length (executors s) ≤ a
      | Some a =>
          child_executor' = child_executor
          ∧ ∃ e ts,
              executors s !! a = Some (Some e)
              ∧ executors s' !! a
                = Some (Some (with_children e
                     (children_ e ++ map (λ t', Some (tree_addr t')) ts)))
              ∧ Forall (tree_in (executors s')) ts
              ∧ compile_children compiles_to children ts
              ∧ Forall (tree_within (length (executors s))
                                    (length (executors s'))) ts
              ∧ NoDup (ts ≫= tree_addrs)
      end.
End build_contract.

(** *** The contract of [CleanExecutorTree] *)

Section clean_contract.
Context {Transaction ValueArray : Type}.
Implicit Types s : Store Transaction ValueArray.

(** From [s] to [s'] the executors at [addrs] were deleted, in the order
    [order], and nothing else changed. *)
Definition cleaned (addrs order : list nat) s s' : Prop :=
  deleted s' = deleted s ++ order
  ∧ contexts s' = contexts s
  ∧ length (executors s') = length (executors s)
  ∧ (∀ x, x ∈ addrs → executors s' !! x = Some None)
  ∧ (∀ x, x ∉ addrs → executors s' !! x = executors s !! x).
End clean_contract.

(** *** The compiled tree and the plan *)

Section compiled_shape.
Context {Transaction ParamListInfo ValueArray : Type}.
Variable BuildParams : ParamListInfo → ValueArray.

(** Lines 242-247, run in [s], end with a tree that has the shape and the
    node count of [plan], under one more root where the tag of the plan's
    root is one of [materialized_tags] and as it is otherwise. *)
Definition compiled_like_plan (plan : AbstractPlan)
    (param_list : ParamListInfo) (txn : Transaction)
    (s : Store Transaction ValueArray) : Prop :=
  ∃ root s' t,
    bind (BuildExecutorTree BuildParams None plan param_list txn)
         AddMaterialization s = Done (Some root, s')
    ∧ tree_in (executors s') t
    ∧ mirrors plan t
    ∧ tree_size t = plan_size plan
    ∧ match plan with
      | null_plan => False
      | PlanNode ty _ =>
          if decide (ty ∈ [PLAN_NODE_TYPE_MERGEJOIN; PLAN_NODE_TYPE_NESTLOOP;
                           PLAN_NODE_TYPE_SEQSCAN; PLAN_NODE_TYPE_INDEXSCAN;
                           PLAN_NODE_TYPE_LIMIT])
          then ((root ∉ tree_addrs t)
                ∧ tree_in (executors s')
                    (ExecNode root
                       (mkExecutor MaterializationExecutor null_plan None
                                   [Some (tree_addr t)]) [t]))
          else root = tree_addr t
      end.
End compiled_shape.

(** *** The driver's trace *)

Section driver_vocabulary.
Context {ValueArray Tuple Slot TupleDesc OpState : Type}.
Variable GetPostgresTuple : Tuple → TupleDesc → option Slot.
Implicit Types w : World (ValueArray := ValueArray) (Tuple := Tuple)
                         (OpState := OpState).

(** The Result recorded on the transaction known as [txn_id]. *)
Definition txn_result w (txn_id : TransactionId) : option Result :=
  txn_table (txn_manager w) !! txn_id.

Definition events w : list TxnEvent := txn_events (txn_manager w).

(** The executor calls of a pull loop that obtained the batches [tiles]
    and then stopped: every pull is an [Execute] that returns true followed
    by a [GetOutput]; the last call is an [Execute] that returns false. *)
Definition pull_trace (tiles : list (option (LogicalTile Tuple)))
  : list (ExecutorCall Tuple) :=
  (tiles ≫= λ tile, [Execute_call true; GetOutput_call tile])
  ++ [Execute_call false].

(** The host rows of one pull: none for a null batch; for a batch, the rows
    of its base tile in storage order, those without a host row left out. *)
Definition rows_of (tuple_desc : TupleDesc)
    (tile : option (LogicalTile Tuple)) : list Slot :=
  match tile with
  | None => []
  | Some tile =>
      match GetBaseTile tile 0 with
      | Some base_tile =>
          omap (λ tuple, GetPostgresTuple tuple tuple_desc)
               (tile_tuples base_tile)
      | None => []
      end
  end.

(** The batch is null or has a base tile at offset 0. *)
Definition has_base_tile (tile : option (LogicalTile Tuple)) : Prop :=
  match tile with
  | None => True
  | Some tile => is_Some (GetBaseTile tile 0)
  end.

(** The world after an executor call that left the operators in state [o]
    and the Result [r] on the transaction [txn_id]. *)
Definition after_call w (txn_id : TransactionId) (o : OpState) (r : Result)
    (c : ExecutorCall Tuple) : World :=
  mkWorld (store w)
    (mkTransactionManager (<[txn_id := r]> (txn_table (txn_manager w)))
       (txn_events (txn_manager w)))
    o (executor_calls w ++ [c]).

(** The transaction manager after lines 229-236. *)
Definition after_lookup w (txn_id : TransactionId) : TransactionManager :=
  match txn_result w txn_id with
  | Some _ =>
      mkTransactionManager (txn_table (txn_manager w))
        (events w ++ [GetPGTransaction_call txn_id])
  | None =>
      mkTransactionManager
        (<[txn_id := RESULT_SUCCESS]> (txn_table (txn_manager w)))
        (events w ++ [GetPGTransaction_call txn_id;
                      StartPGTransaction_call txn_id])
  end.

(** What the code under [cleanup] asks of the transaction manager. *)
Definition finalization (single_statement_txn init_failure : bool)
    (txn_id : TransactionId) (r : Result) : list TxnEvent :=
  if single_statement_txn || init_failure then
    match r with
    | RESULT_SUCCESS => [CommitTransaction_call txn_id]
    | _ => [AbortTransaction_call txn_id]
    end
  else [].
End driver_vocabulary.

(** ** Worked examples *)

Module Examples.
(** A sequential scan over nothing else. *)
Definition scan : AbstractPlan := PlanNode PLAN_NODE_TYPE_SEQSCAN [].

(** A node with the invalid tag and no children. *)
Definition invalid : AbstractPlan := PlanNode PLAN_NODE_TYPE_INVALID [].

(** A projection over a merge join of two scans. *)
Definition join_plan : AbstractPlan :=
  PlanNode PLAN_NODE_TYPE_PROJECTION
    [PlanNode PLAN_NODE_TYPE_MERGEJOIN [scan; PlanNode PLAN_NODE_TYPE_INDEXSCAN []]].

(** A limit over a node with the invalid tag. *)
Definition skip_plan : AbstractPlan :=
  PlanNode PLAN_NODE_TYPE_LIMIT [invalid].

(** A limit over an unsupported node that has a scan below it. *)
Definition gap_plan : AbstractPlan :=
  PlanNode PLAN_NODE_TYPE_LIMIT [PlanNode (PLAN_NODE_TYPE_OTHER 52) [scan]].

Definition BuildParams (param_list : unit) : unit := tt.

Definition empty_store : Store TransactionPtr unit := mkStore [] [] [].

(** The store after [scan] was compiled for transaction 7: the scan at
    address 0 and the materialization over it at address 1. *)
Definition scan_executor : AbstractExecutor :=
  mkExecutor SeqScanExecutor scan (Some 0) [].

Definition scan_tree : ExecTree :=
  ExecNode 1 (materialization_over (Some 0)) [ExecNode 0 scan_executor []].

Definition scan_store : Store TransactionPtr unit :=
  mkStore [Some scan_executor; Some (materialization_over (Some 0))]
          [mkContext (Some 7%N) tt] [].

(** Tuples and host rows are numbers; the tuple 0 has no host row. *)
Definition GetPostgresTuple (tuple : nat) (tuple_desc : unit) : option nat :=
  match tuple with
  | 0 => None
  | _ => Some tuple
  end.

(** The operators count the calls of [Execute]: three pulls, then no more.
    The first pull yields the rows 1, 0 and 2, the second no batch, the
    third the row 3. *)
Definition executor_Init_ok (s : Store TransactionPtr unit) (a o : nat)
    (r : Result) : bool * nat * Result := (true, o, r).

Definition executor_Init_fails (s : Store TransactionPtr unit) (a o : nat)
    (r : Result) : bool * nat * Result := (false, o, r).

Definition executor_Execute (s : Store TransactionPtr unit) (a o : nat)
    (r : Result) : bool * nat * Result := (o <? 3, S o, r).

Definition executor_GetOutput (s : Store TransactionPtr unit) (a o : nat)
  : option (LogicalTile nat) * nat :=
  (match o with
   | 1 => Some (mkLogicalTile [mkTile [1; 0; 2]])
   | 2 => None
   | _ => Some (mkLogicalTile [mkTile [3]])
   end, o).

(** Operators whose [Execute] always has more output and never a batch. *)
Definition executor_Execute_forever (s : Store TransactionPtr unit) (a o : nat)
    (r : Result) : bool * nat * Result := (true, S o, r).

Definition executor_GetOutput_nothing (s : Store TransactionPtr unit) (a o : nat)
  : option (LogicalTile nat) * nat := (None, o).

(** No transaction is known. *)
Definition fresh_world : World (ValueArray := unit) (Tuple := nat) :=
  mkWorld empty_store (mkTransactionManager ∅ []) 0 [].

(** Transaction 7 is known, [scan] is compiled, and the operators have seen
    [pulls] calls of [Execute]. *)
Definition ready_world (pulls : nat) : World (ValueArray := unit) (Tuple := nat) :=
  mkWorld scan_store (mkTransactionManager {[7%N := RESULT_SUCCESS]} [])
          pulls [].

Definition status0 : Peloton_Status nat := mkStatus RESULT_SUCCESS [].

(** [ExecutePlan] on [plan], for transaction 7, in the fresh world. *)
Definition run (init_ok : bool) (plan : AbstractPlan)
  : Outcome (Peloton_Status nat * World) :=
  ExecutePlan BuildParams GetPostgresTuple
    (if init_ok then executor_Init_ok else executor_Init_fails)
    executor_Execute executor_GetOutput 10 plan tt tt status0 7%N fresh_world.

(** A status that holds the row 9 of an earlier call. *)
Definition stale_status : Peloton_Status nat := mkStatus RESULT_SUCCESS [9].

(** [ExecutePlan] on [plan], for transaction 7, in the fresh world, with
    [stale_status] as the caller's status. *)
Definition run_stale (init_ok : bool) (plan : AbstractPlan)
  : Outcome (Peloton_Status nat * World) :=
  ExecutePlan BuildParams GetPostgresTuple
    (if init_ok then executor_Init_ok else executor_Init_fails)
    executor_Execute executor_GetOutput 10 plan tt tt stale_status 7%N
    fresh_world.

(** The store after an insert without children was compiled for
    transaction 7. *)
Definition insert_store : Store TransactionPtr unit :=
  mkStore [Some (mkExecutor InsertExecutor (PlanNode PLAN_NODE_TYPE_INSERT [])
                            (Some 0) [])]
          [mkContext (Some 7%N) tt] [].
End Examples.

(** * Facts *)

(** ** Induction over plans and over executor trees *)

Lemma AbstractPlan_nested_ind (P : AbstractPlan → Prop) :
  P null_plan →
  (∀ plan_node_type children,
     Forall P children → P (PlanNode plan_node_type children)) →
  ∀ plan, P plan.
Proof.
  intros Hnull Hnode. fix IH 1. intros [|ty cs].
  - exact Hnull.
  - apply Hnode. induction cs as [|c cs IHcs]; constructor.
    + apply IH.
    + exact IHcs.
Qed.

Lemma ExecTree_nested_ind (P : ExecTree → Prop) :
  (∀ addr e ts, Forall P ts → P (ExecNode addr e ts)) →
  ∀ t, P t.
Proof.
  intros Hnode. fix IH 1. intros [a e ts].
  apply Hnode. induction ts as [|t ts IHts]; constructor.
  - apply IH.
  - exact IHts.
Qed.

(** ** Trees in a store *)

Lemma tree_in_node h addr e ts :
  tree_in h (ExecNode addr e ts) ↔
  h !! addr = Some (Some e)
  ∧ children_ e = map (λ t', Some (tree_addr t')) ts
  ∧ Forall (tree_in h) ts.
Proof.
  cbn [tree_in]. rewrite Forall_fold_right. reflexivity.
Qed.

Lemma tree_addrs_node addr e ts :
  tree_addrs (ExecNode addr e ts) = addr :: (ts ≫= tree_addrs).
Proof. reflexivity. Qed.

Lemma elem_of_tree_addrs_sub x t ts :
  t ∈ ts → x ∈ tree_addrs t → x ∈ ts ≫= tree_addrs.
Proof. intros Ht Hx. apply list_elem_of_bind. by exists t. Qed.

(** A tree only depends on the cells at its own addresses. *)
Lemma tree_in_frame h h' t :
  (∀ a, a ∈ tree_addrs t → h' !! a = h !! a) →
  tree_in h t → tree_in h' t.
Proof.
  induction t as [a e ts IH] using ExecTree_nested_ind.
  rewrite !tree_in_node, tree_addrs_node. intros Hsame (Ha & Hc & Hts).
  split; [|split; [done|]].
  - rewrite Hsame; [done|]. left.
  - rewrite Forall_forall in IH, Hts. apply Forall_forall. intros t Ht.
    apply IH; [done| |by apply Hts].
    intros x Hx. apply Hsame. right. by eapply elem_of_tree_addrs_sub.
Qed.

Lemma tree_in_addr_live h t : tree_in h t → valid_ptr h (Some (tree_addr t)).
Proof. destruct t as [a e ts]. intros [Ha _]. by exists e. Qed.

Lemma postorder_perm t : postorder t ≡ₚ tree_addrs t.
Proof.
  induction t as [a e ts IH] using ExecTree_nested_ind. cbn [postorder tree_addrs].
  rewrite <-Permutation_cons_append. constructor.
  induction IH as [|t ts Ht _ IHts]; [done|]. cbn. by rewrite Ht, IHts.
Qed.

Lemma tree_height_le_size t : tree_height t ≤ tree_size t.
Proof.
  induction t as [a e ts IH] using ExecTree_nested_ind. cbn [tree_height tree_size].
  apply le_n_S. induction IH as [|t ts Ht _ IHts]; cbn; lia.
Qed.

Lemma tree_addrs_length t : length (tree_addrs t) = tree_size t.
Proof.
  induction t as [a e ts IH] using ExecTree_nested_ind. cbn [tree_addrs tree_size length].
  f_equal. induction IH as [|t ts Ht _ IHts]; [done|].
  cbn. rewrite length_app. lia.
Qed.

(** ** The monad *)

Lemma bind_run {S A B : Type} (m : M S A) (k : A → M S B) (s : S) :
  bind m k s = match m s with
               | Done (a, s') => k a s'
               | Crash f => Crash f
               end.
Proof. reflexivity. Qed.

Lemma bind_done {S A B : Type} (m : M S A) (k : A → M S B) (s s' : S) (a : A) :
  m s = Done (a, s') → bind m k s = k a s'.
Proof. intros H. by rewrite bind_run, H. Qed.

Lemma bind_crash {S A B : Type} (m : M S A) (k : A → M S B) (s : S) (f : Fault) :
  m s = Crash f → bind m k s = Crash f.
Proof. intros H. by rewrite bind_run, H. Qed.

(** ** Frames *)

Lemma insert_last {A : Type} (l : list A) (x y : A) :
  <[length l := x]> (l ++ [y]) = l ++ [x].
Proof.
  replace (length l) with (length l + 0) by lia. by rewrite insert_app_r.
Qed.

Lemma with_children_same e : with_children e (children_ e) = e.
Proof. by destruct e. Qed.

Lemma with_children_twice e cs cs' :
  with_children (with_children e cs) cs' = with_children e cs'.
Proof. reflexivity. Qed.

Lemma frame_except_refl h p : frame_except h h p.
Proof. split; [lia|done]. Qed.

Lemma frame_except_weaken h h' p : frame_except h h' None → frame_except h h' p.
Proof. intros [Hlen Hsame]. split; [done|]. intros a Ha _. by apply Hsame. Qed.

Lemma frame_except_valid h h' p q :
  frame_except h h' p → Some q ≠ p → valid_ptr h (Some q) → valid_ptr h' (Some q).
Proof.
  intros [Hlen Hsame] Hne [e He]. exists e. rewrite Hsame; [done| |done].
  by eapply lookup_lt_Some.
Qed.

Lemma tree_within_weaken lo hi lo' hi' t :
  lo' ≤ lo → hi ≤ hi' → tree_within lo hi t → tree_within lo' hi' t.
Proof.
  unfold tree_within. intros Hlo Hhi H. eapply Forall_impl; [exact H|].
  intros a; cbn; lia.
Qed.

Lemma tree_within_addr lo hi t : tree_within lo hi t → lo ≤ tree_addr t < hi.
Proof.
  destruct t as [a e ts]. unfold tree_within. rewrite tree_addrs_node.
  by intros [? _]%Forall_cons.
Qed.

Lemma tree_in_frame_except h h' p t lo :
  frame_except h h' p →
  tree_within lo (length h) t →
  (∀ a, p = Some a → a < lo) →
  tree_in h t → tree_in h' t.
Proof.
  intros [Hlen Hsame] Hin Hp. apply tree_in_frame. intros a Ha.
  unfold tree_within in Hin. rewrite Forall_forall in Hin.
  specialize (Hin a Ha). apply Hsame; [lia|].
  intros <-. specialize (Hp a eq_refl). lia.
Qed.

(** ** [BuildExecutorTree] *)

Section build_facts.
Context {Transaction ParamListInfo ValueArray : Type}.
Variable BuildParams : ParamListInfo → ValueArray.
Implicit Types s : Store Transaction ValueArray.

(** The [switch] constructs the executor of [executor_for], or nothing. *)
Lemma BuildExecutorTree_node root ty cs (param_list : ParamListInfo)
    (txn : Transaction) :
  BuildExecutorTree BuildParams root (PlanNode ty cs) param_list txn
  = (let* executor_context :=
       new_ExecutorContext txn (BuildParams param_list) in
     let* child_executor :=
       match executor_for ty with
       | Some K => new_Executor K (PlanNode ty cs) executor_context
       | None => ret None
       end in
     let* root' :=
       match child_executor with
       | Some _ =>
           match root with
           | Some _ => AddChild root child_executor ;;; ret root
           | None => ret child_executor
           end
       | None => ret root
       end in
     let* _ :=
       for_each_acc
         (λ child_executor child,
            BuildExecutorTree BuildParams child_executor child param_list txn)
         cs child_executor in
     ret root').
Proof. destruct ty; reflexivity. Qed.

Lemma AddChild_run s a e child :
  executors s !! a = Some (Some e) →
  AddChild (Some a) child s
  = Done (tt, mkStore (<[a := Some (with_children e (children_ e ++ [child]))]>
                         (executors s))
                      (contexts s) (deleted s)).
Proof.
  intros H. unfold AddChild, deref. rewrite bind_run, H. reflexivity.
Qed.

Lemma loop_post_nil ce ctx s :
  valid_ptr (executors s) ce → loop_post ce [] ctx s (Done (ce, s)).
Proof.
  intros Hv. exists ce, s. split; [done|]. cbn [plans_size foldr replicate].
  rewrite app_nil_r. split; [done|]. split; [done|].
  split; [apply frame_except_refl|]. split; [done|].
  destruct ce as [a|]; [|by left]. split; [done|].
  destruct Hv as [e He]. exists e, []. cbn [map].
  rewrite app_nil_r, with_children_same. repeat split; try done.
  cbn. constructor.
Qed.

Lemma loop_post_cons ce c cs ctx s ce1 s1 res :
  valid_ptr (executors s) ce →
  build_post ce c ctx s (Done (ce1, s1)) →
  (valid_ptr (executors s1) ce1 → loop_post ce1 cs ctx s1 res) →
  loop_post ce (c :: cs) ctx s res.
Proof.
  intros Hv (ce1' & s1' & [= <- <-] & Hctx1 & Hdel1 & Hhead) Hrest.
  destruct (head_executor c) as [K|] eqn:HK.
  - (* an executor was constructed for [c] *)
    destruct Hhead as (Hfr1 & t & Hta & Htin & Htc & Htw & Htnd & Hroot).
    destruct ce as [a|].
    + destruct Hroot as (-> & e & He & He1).
      destruct Hrest as (ce' & s' & -> & Hctx & Hdel & Hfr & Hv' & -> & Hts).
      { by eexists. }
      destruct Hts as (e1 & ts & He1' & He' & Htsin & Htsc & Htsw & Htsnd).
      rewrite He1 in He1'. injection He1' as <-.
      assert (a < length (executors s)) as Ha by by eapply lookup_lt_Some.
      exists (Some a), s'. split; [done|].
      split. { rewrite Hctx, Hctx1, <-app_assoc, <-replicate_add. done. }
      split. { congruence. }
      split.
      { destruct Hfr1 as [Hl1 Hs1], Hfr as [Hl2 Hs2]. split; [lia|].
        intros x Hx Hne. rewrite Hs2 by (done || lia). by apply Hs1. }
      split; [done|]. split; [done|].
      exists e, (t :: ts). split; [done|]. split.
      { rewrite He'. cbn [map children_ with_children]. rewrite Hta.
        by rewrite <-app_assoc. }
      split.
      { constructor; [|done].
        eapply tree_in_frame_except; [exact Hfr|exact Htw| |done].
        intros ? [= <-]. done. }
      split. { cbn [compile_children]. by rewrite HK. }
      split.
      { destruct Hfr1 as [Hl1 _], Hfr as [Hl2 _]. constructor.
        - eapply tree_within_weaken; [| |exact Htw]; lia.
        - eapply Forall_impl; [exact Htsw|]. intros t' Ht'.
          eapply tree_within_weaken; [| |exact Ht']; lia. }
      cbn [mbind list_bind]. apply NoDup_app. split; [done|]. split; [|done].
      intros x Hx (t' & Hx' & Ht')%list_elem_of_bind.
      unfold tree_within in Htw. rewrite Forall_forall in Htw.
      rewrite Forall_forall in Htsw. specialize (Htsw t' Ht').
      unfold tree_within in Htsw. rewrite Forall_forall in Htsw.
      specialize (Htw x Hx). specialize (Htsw x Hx'). lia.
    + subst ce1.
      destruct Hrest as (ce' & s' & -> & Hctx & Hdel & Hfr & Hv' & -> & _).
      { rewrite <-Hta. by eapply tree_in_addr_live. }
      pose proof (tree_within_addr _ _ _ Htw) as Hlt. rewrite Hta in Hlt.
      exists (Some (length (executors s))), s'. split; [done|].
      split. { rewrite Hctx, Hctx1, <-app_assoc, <-replicate_add. done. }
      split. { congruence. }
      split.
      { destruct Hfr1 as [Hl1 Hs1], Hfr as [Hl2 Hs2]. split; [lia|].
        intros x Hx Hne. rewrite Hs2; [by apply Hs1|lia|].
        intros [= ->]. lia. }
      split; [done|]. right. by eexists.
  - (* no executor for [c] *)
    destruct Hhead as (-> & Hfr1).
    destruct Hrest as (ce' & s' & -> & Hctx & Hdel & Hfr & Hv' & Hce).
    { destruct ce as [a|]; [|done].
      eapply frame_except_valid; [exact Hfr1|done|done]. }
    exists ce', s'. split; [done|].
    split. { rewrite Hctx, Hctx1, <-app_assoc, <-replicate_add. done. }
    split. { congruence. }
    split.
    { destruct Hfr1 as [Hl1 Hs1], Hfr as [Hl2 Hs2]. split; [lia|].
      intros x Hx Hne. rewrite Hs2 by (done || lia). by apply Hs1. }
    split; [done|].
    destruct ce as [a|].
    + destruct Hce as (-> & e1 & ts & He1 & He' & Htsin & Htsc & Htsw & Htsnd).
      split; [done|]. exists e1, ts.
      destruct Hv as [e He]. destruct Hfr1 as [Hl1 Hs1].
      assert (a < length (executors s)) as Ha by by eapply lookup_lt_Some.
      rewrite Hs1 in He1 by done.
      split; [done|]. split; [done|]. split; [done|].
      split. { cbn [compile_children]. by rewrite HK. }
      split; [|done].
      eapply Forall_impl; [exact Htsw|]. intros t' Ht'.
      eapply tree_within_weaken; [| |exact Ht']; lia.
    + destruct Hce as [->|(a & -> & Ha)]; [by left|right].
      exists a. split; [done|]. destruct Hfr1 as [Hl1 _]. lia.
Qed.
Lemma loop_post_all (param_list : ParamListInfo) (txn : Transaction) cs :
  let ctx := mkContext txn (BuildParams param_list) in
  Forall (λ c, ∀ root s, valid_ptr (executors s) root →
               build_post root c ctx s
                 (BuildExecutorTree BuildParams root c param_list txn s)) cs →
  ∀ ce s, valid_ptr (executors s) ce →
    loop_post ce cs ctx s
      (for_each_acc
         (λ child_executor child,
            BuildExecutorTree BuildParams child_executor child param_list txn)
         cs ce s).
Proof.
  intros ctx. induction 1 as [|c cs Hc _ IH]; intros ce s Hv.
  - by apply loop_post_nil.
  - cbn [for_each_acc]. rewrite bind_run.
    pose proof (Hc ce s Hv) as Hpost.
    destruct Hpost as (ce1 & s1 & Hrun & Hpost). rewrite Hrun.
    eapply loop_post_cons; [exact Hv| |].
    + exists ce1, s1. split; [done|exact Hpost].
    + apply IH.
Qed.

(** The contract holds for every plan and every valid [root]. *)
Lemma BuildExecutorTree_post plan (param_list : ParamListInfo)
    (txn : Transaction) :
  ∀ root s, valid_ptr (executors s) root →
    build_post root plan (mkContext txn (BuildParams param_list)) s
      (BuildExecutorTree BuildParams root plan param_list txn s).
Proof.
  induction plan as [|ty cs IH] using AbstractPlan_nested_ind; intros root s Hv.
  { exists root, s. split; [done|]. cbn [plan_size replicate].
    rewrite app_nil_r. repeat split; try done. }
  pose proof (loop_post_all param_list txn cs IH) as Hall; clear IH;
    rename Hall into IH; cbn zeta in IH. rewrite BuildExecutorTree_node.
  rewrite bind_run. cbn [new_ExecutorContext].
  set (ctx := mkContext txn (BuildParams param_list)) in *.
  set (sc := mkStore (executors s) (contexts s ++ [ctx]) (deleted s)).
  cbn [head_executor]. destruct (executor_for ty) as [K|] eqn:HK.
  - rewrite bind_run. cbn [new_Executor].
    set (n := length (executors s)).
    set (e0 := mkExecutor K (PlanNode ty cs) (Some (length (contexts s))) []).
    change (executors sc) with (executors s).
    change (contexts sc) with (contexts s ++ [ctx]).
    change (deleted sc) with (deleted s).
    set (se := mkStore (executors s ++ [Some e0]) (contexts s ++ [ctx]) (deleted s)).
    assert (executors se !! n = Some (Some e0)) as Hn.
    { cbn. by apply list_lookup_middle. }
    (* the state and root after the attachment to [root] *)
    assert (∃ sa root',
      (match root with
       | Some _ => AddChild root (Some n) ;;; ret root
       | None => ret (Some n)
       end) se = Done (root', sa)
      ∧ contexts sa = contexts s ++ [ctx] ∧ deleted sa = deleted s
      ∧ length (executors sa) = S n
      ∧ executors sa !! n = Some (Some e0)
      ∧ frame_except (executors s) (executors sa) root
      ∧ match root with
        | None => root' = Some n
        | Some r => root' = root ∧ child_added (executors s) (executors sa) r n
        end) as (sa & root' & Hrun & Hctxa & Hdela & Hlena & Hna & Hfra & Hroot).
    { destruct root as [r|].
      - destruct Hv as [e He].
        assert (r < n) as Hr by by eapply lookup_lt_Some.
        eexists _, _. split.
        { rewrite bind_run. erewrite AddChild_run; [reflexivity|].
          cbn. rewrite lookup_app_l by done. exact He. }
        cbn [executors contexts deleted se].
        split; [done|]. split; [done|].
        split. { rewrite length_insert, length_app. cbn. lia. }
        split. { rewrite list_lookup_insert_ne by lia. exact Hn. }
        split.
        { split. { rewrite length_insert, length_app. lia. }
          intros a Ha Hne. rewrite list_lookup_insert_ne by congruence.
          by apply lookup_app_l. }
        split; [done|]. exists e. split; [done|].
        apply list_lookup_insert_eq. rewrite length_app. cbn. lia.
      - exists se, (Some n). split; [done|]. cbn [executors contexts deleted se].
        split; [done|]. split; [done|].
        split. { rewrite length_app. cbn. lia. }
        split; [done|]. split; [|done].
        split. { rewrite length_app. lia. }
        intros a Ha _. by apply lookup_app_l. }
    rewrite (bind_done _ _ _ _ _ Hrun). rewrite bind_run.
    destruct (IH (Some n) sa) as (ce' & s' & Hloop & Hctx & Hdel & Hfr & _ & _ & Hts).
    { by eexists. }
    fold n. rewrite Hloop. cbn [ret].
    destruct Hts as (e1 & ts & He1 & He' & Htsin & Htsc & Htsw & Htsnd).
    rewrite Hna in He1. injection He1 as <-. cbn [children_ e0 app] in He'.
    exists root', s'. split; [done|].
    split.
    { rewrite Hctx, Hctxa, <-app_assoc. cbn [plan_size]. done. }
    split; [congruence|]. cbn [head_executor]. rewrite HK.
    destruct Hfra as [Hla Hsa], Hfr as [Hl Hs].
    split.
    { split; [lia|]. intros a Ha Hne. fold n in Ha.
      rewrite Hs; [by apply Hsa|lia|]. intros [= ->]. lia. }
    exists (ExecNode n (with_children e0 (map (λ t', Some (tree_addr t')) ts)) ts).
    split; [done|]. split. { by apply tree_in_node. }
    split. { cbn. by rewrite HK. }
    split.
    { unfold tree_within. rewrite tree_addrs_node. constructor; [fold n; lia|].
      apply Forall_forall. intros x (t' & Hx & Ht')%list_elem_of_bind.
      rewrite Forall_forall in Htsw. specialize (Htsw t' Ht').
      unfold tree_within in Htsw. rewrite Forall_forall in Htsw.
      specialize (Htsw x Hx). fold n. lia. }
    split.
    { rewrite tree_addrs_node. constructor; [|done].
      intros (t' & Hx & Ht')%list_elem_of_bind.
      rewrite Forall_forall in Htsw. specialize (Htsw t' Ht').
      unfold tree_within in Htsw. rewrite Forall_forall in Htsw.
      specialize (Htsw n Hx). lia. }
    destruct root as [r|]; [|done]. destruct Hroot as [-> (e & He & Hea)].
    split; [done|]. exists e. split; [done|].
    assert (r < n) as Hr by by eapply lookup_lt_Some.
    rewrite Hs; [done|lia|]. intros [= ->]. lia.
  - rewrite bind_run. cbn [ret]. rewrite bind_run. cbn [ret]. rewrite bind_run.
    destruct (IH None sc) as (ce' & s' & Hloop & Hctx & Hdel & Hfr & _).
    { done. }
    rewrite Hloop. exists root, s'. split; [done|].
    split. { rewrite Hctx. cbn [contexts sc plan_size]. by rewrite <-app_assoc. }
    split; [done|]. cbn [head_executor]. rewrite HK. split; [done|]. exact Hfr.
Qed.
End build_facts.

(** ** Shapes *)

Lemma mirror_children_size cs ts :
  Forall (λ c, ∀ t, mirrors c t → tree_size t = plan_size c) cs →
  mirror_children mirrors cs ts →
  foldr (λ t' n, tree_size t' + n) 0 ts = plans_size cs.
Proof.
  intros IH. revert ts. induction IH as [|c cs Hc _ IH]; intros [|t ts]; cbn;
    try done.
  intros [Ht Hts]. by rewrite (Hc t Ht), (IH ts Hts).
Qed.

(** A tree that mirrors a plan has as many nodes as the plan. *)
Lemma mirrors_size plan : ∀ t, mirrors plan t → tree_size t = plan_size plan.
Proof.
  induction plan as [|ty cs IH] using AbstractPlan_nested_ind; intros [a e ts];
    [done|].
  intros (_ & _ & _ & Hts). cbn [subtrees] in Hts. cbn [tree_size plan_size].
  f_equal. by apply mirror_children_size.
Qed.

Lemma compile_children_mirror cs ts :
  forallb all_supported cs = true →
  Forall (λ c, ∀ t, all_supported c = true → compiles_to c t → mirrors c t) cs →
  compile_children compiles_to cs ts → mirror_children mirrors cs ts.
Proof.
  intros Hall IH. revert ts Hall.
  induction IH as [|c cs Hc _ IH]; intros ts Hall.
  { by intros ->. }
  cbn [forallb] in Hall. apply andb_true_iff in Hall as [Hcs Hrest].
  cbn [compile_children mirror_children].
  destruct c as [|ty cs']; [done|]. cbn [all_supported] in Hcs.
  apply andb_true_iff in Hcs as [Hty Hcs']. apply bool_decide_eq_true in Hty.
  destruct Hty as [K HK]. cbn [head_executor]. rewrite HK.
  destruct ts as [|t ts]; [done|]. intros [Ht Hts]. split.
  - apply Hc; [|done]. cbn [all_supported]. rewrite Hcs'.
    rewrite bool_decide_eq_true_2; [done|by eexists].
  - by apply IH.
Qed.

(** On a plan whose tags are all supported, the compiled tree mirrors the
    plan. *)
Lemma compiles_to_mirrors plan :
  ∀ t, all_supported plan = true → compiles_to plan t → mirrors plan t.
Proof.
  induction plan as [|ty cs IH] using AbstractPlan_nested_ind; intros t; [done|].
  cbn [all_supported compiles_to mirrors].
  intros [_ Hcs]%andb_true_iff (HK & Hn & Hc & Hts).
  repeat (split; [done|]). by apply compile_children_mirror.
Qed.

Lemma needs_materialization_tags ty :
  needs_materialization ty = true ↔ ty ∈ materialized_tags.
Proof.
  unfold materialized_tags. rewrite !elem_of_cons, elem_of_nil.
  destruct ty; cbn; split; intros H; try done; try tauto;
    repeat (destruct H as [H|H]; try done).
Qed.

(** ** [BuildExecutorTree], [AddMaterialization]: main results *)

Section store_theorems.
Context {Transaction ParamListInfo ValueArray : Type}.
Variable BuildParams : ParamListInfo → ValueArray.
Implicit Types s : Store Transaction ValueArray.

(** On a plan without a supported tag no executor is constructed: the
    store of executors is left as it was and [root] is returned. *)
Lemma BuildExecutorTree_none_supported plan (param_list : ParamListInfo)
    (txn : Transaction) :
  none_supported plan = true →
  ∀ root s,
    BuildExecutorTree BuildParams root plan param_list txn s
    = Done (root,
            mkStore (executors s)
              (contexts s ++ replicate (plan_size plan)
                               (mkContext txn (BuildParams param_list)))
              (deleted s)).
Proof.
  induction plan as [|ty cs IH] using AbstractPlan_nested_ind; intros Hnone root s.
  { cbn. rewrite app_nil_r. by destruct s. }
  cbn [none_supported] in Hnone. apply andb_true_iff in Hnone as [Hty Hcs].
  apply bool_decide_eq_true in Hty.
  rewrite BuildExecutorTree_node, Hty. rewrite bind_run. cbn [new_ExecutorContext].
  rewrite bind_run. cbn [ret]. rewrite bind_run. cbn [ret]. rewrite bind_run.
  set (ctx := mkContext txn (BuildParams param_list)).
  assert (∀ s0,
    for_each_acc
      (λ child_executor child,
         BuildExecutorTree BuildParams child_executor child param_list txn)
      cs None s0
    = Done (None, mkStore (executors s0)
                    (contexts s0 ++ replicate (plans_size cs) ctx)
                    (deleted s0))) as ->.
  { clear s. induction IH as [|c cs Hc _ IHcs]; intros s0.
    - cbn. rewrite app_nil_r. by destruct s0.
    - cbn [forallb] in Hcs. apply andb_true_iff in Hcs as [Hc' Hcs].
      cbn [for_each_acc]. rewrite bind_run, (Hc Hc'), (IHcs Hcs).
      cbn [executors contexts deleted plans_size foldr].
      by rewrite <-app_assoc, <-replicate_add. }
  cbn [executors contexts deleted plan_size ret].
  by rewrite <-app_assoc.
Qed.

(** C9: while a plan is compiled, one execution context is constructed for
    every plan node visited, whatever its tag: the call adds as many
    contexts as the plan has nodes, each made of the transaction and the
    parameters of the call; where no node of the plan has a supported tag,
    the contexts are all that is constructed. *)
Theorem BuildExecutorTree_one_context_per_node plan
    (param_list : ParamListInfo) (txn : Transaction) root s :
  valid_ptr (executors s) root →
  ∃ root' s',
    BuildExecutorTree BuildParams root plan param_list txn s = Done (root', s')
    ∧ contexts s'
      = contexts s
        ++ replicate (plan_size plan) (mkContext txn (BuildParams param_list))
    ∧ (none_supported plan = true → root' = root ∧ executors s' = executors s).
Proof.
  intros Hv.
  destruct (BuildExecutorTree_post BuildParams plan param_list txn root s Hv)
    as (root' & s' & Hrun & Hctx & _).
  exists root', s'. split; [done|]. split; [done|].
  intros Hnone.
  rewrite (BuildExecutorTree_none_supported plan param_list txn Hnone) in Hrun.
  by injection Hrun as <- <-.
Qed.

(** What [AddMaterialization] does at a live root that refers back to a plan
    node of tag [ty]. *)
Lemma AddMaterialization_run s a e ty cs :
  executors s !! a = Some (Some e) →
  node_ e = PlanNode ty cs →
  AddMaterialization (Some a) s
  = if needs_materialization ty then
      Done (Some (length (executors s)),
            mkStore (executors s ++ [Some (materialization_over (Some a))])
                    (contexts s) (deleted s))
    else Done (Some a, s).
Proof.
  intros He Hn. unfold AddMaterialization, GetRawNode, deref.
  rewrite !bind_run, He. cbn [ret]. rewrite Hn. cbn [GetPlanNodeType ret].
  assert (∀ s0 : Store Transaction ValueArray,
    executors s0 !! a = Some (Some e) →
    (let* new_root := new_Executor MaterializationExecutor null_plan None in
     AddChild new_root (Some a) ;;; ret new_root) s0
    = Done (Some (length (executors s0)),
            mkStore (executors s0 ++ [Some (materialization_over (Some a))])
                    (contexts s0) (deleted s0))) as Hwrap.
  { intros s0 He0. rewrite bind_run. cbn [new_Executor]. rewrite bind_run.
    erewrite AddChild_run; [|cbn; by apply list_lookup_middle].
    cbn [ret executors contexts deleted]. by rewrite insert_last. }
  destruct ty; cbn [needs_materialization]; try reflexivity; by apply Hwrap.
Qed.

(** C5, amended: [AddMaterialization] returns [nullptr] for [nullptr],
    whatever the store holds.  At a root that refers back to a plan node,
    the tag it inspects is the tag of that plan node (line 189): where it is
    one of MergeJoin, NestedLoopJoin, SequentialScan, IndexScan, Limit the
    call returns a new materialization executor, constructed without plan
    node and without context, whose only child is the root; where it is any
    other tag the call returns the root and changes nothing. *)
Theorem AddMaterialization_spec :
  (∀ s, AddMaterialization None s = Done (None, s))
  ∧ (∀ s a e ty cs,
       executors s !! a = Some (Some e) →
       node_ e = PlanNode ty cs →
       (ty ∈ [PLAN_NODE_TYPE_MERGEJOIN; PLAN_NODE_TYPE_NESTLOOP;
              PLAN_NODE_TYPE_SEQSCAN; PLAN_NODE_TYPE_INDEXSCAN;
              PLAN_NODE_TYPE_LIMIT] →
        AddMaterialization (Some a) s
        = Done (Some (length (executors s)),
                mkStore (executors s
                         ++ [Some (mkExecutor MaterializationExecutor
                                              null_plan None [Some a])])
                        (contexts s) (deleted s)))
       ∧ (ty ∉ [PLAN_NODE_TYPE_MERGEJOIN; PLAN_NODE_TYPE_NESTLOOP;
                PLAN_NODE_TYPE_SEQSCAN; PLAN_NODE_TYPE_INDEXSCAN;
                PLAN_NODE_TYPE_LIMIT] →
          AddMaterialization (Some a) s = Done (Some a, s))).
Proof.
  split; [done|]. intros s a e ty cs He Hn.
  rewrite (AddMaterialization_run s a e ty cs He Hn).
  pose proof (needs_materialization_tags ty) as Htags.
  unfold materialized_tags in Htags.
  destruct (needs_materialization ty); split; intros Hty; try done.
  - exfalso. apply Hty, Htags. done.
  - apply Htags in Hty. done.
Qed.

(** C4, amended: for every plan whose nodes all have a supported tag, the
    tree built by [BuildExecutorTree] mirrors the plan node by node and has
    as many nodes; [AddMaterialization] then adds one root above it when the
    tag of the plan's root is MergeJoin, NestedLoopJoin, SequentialScan,
    IndexScan or Limit, and nothing otherwise. *)
Theorem compiled_tree_mirrors_supported_plan plan
    (param_list : ParamListInfo) (txn : Transaction) s :
  all_supported plan = true →
  compiled_like_plan BuildParams plan param_list txn s.
Proof.
  intros Hall. unfold compiled_like_plan.
  destruct (BuildExecutorTree_post BuildParams plan param_list txn None s I)
    as (root1 & s1 & Hrun & _ & _ & Hhead).
  destruct plan as [|ty cs]; [done|].
  pose proof Hall as Hall'. cbn [all_supported] in Hall'.
  apply andb_true_iff in Hall' as [[K HK]%bool_decide_eq_true _].
  cbn [head_executor] in Hhead. rewrite HK in Hhead.
  destruct Hhead as (_ & t & Hta & Htin & Htc & Htw & _ & ->).
  rewrite bind_run, Hrun.
  destruct t as [a e ts]. cbn [tree_addr] in Hta. subst a.
  pose proof Htin as (He & _)%tree_in_node.
  pose proof Htc as (_ & Hnode & _). cbn [tree_executor] in Hnode.
  rewrite (AddMaterialization_run s1 _ e ty cs He Hnode).
  pose proof (compiles_to_mirrors _ _ Hall Htc) as Hmir.
  pose proof (mirrors_size _ _ Hmir) as Hsize.
  pose proof (needs_materialization_tags ty) as Htags.
  unfold materialized_tags in Htags.
  destruct (needs_materialization ty).
  - eexists _, _, _. split; [reflexivity|]. cbn [executors].
    assert (tree_in (executors s1 ++ [Some (materialization_over (Some (length (executors s))))])
              (ExecNode (length (executors s)) e ts)) as Htin'.
    { eapply tree_in_frame; [|exact Htin]. intros x Hx.
      unfold tree_within in Htw. rewrite Forall_forall in Htw.
      apply lookup_app_l. by apply Htw. }
    split; [exact Htin'|]. split; [done|]. split; [done|].
    rewrite decide_True by by apply Htags.
    split.
    + intros Hx. unfold tree_within in Htw. rewrite Forall_forall in Htw.
      specialize (Htw _ Hx). lia.
    + apply tree_in_node. split; [by apply list_lookup_middle|].
      split; [done|]. by constructor.
  - eexists _, _, _. split; [reflexivity|].
    split; [exact Htin|]. split; [done|]. split; [done|].
    rewrite decide_False; [done|]. intros Hty%Htags. done.
Qed.
End store_theorems.

(** ** [CleanExecutorTree] *)

Lemma tree_height_children f ts :
  foldr (λ t' n, tree_height t' `max` n) 0 ts ≤ f →
  Forall (λ t, tree_height t ≤ f) ts.
Proof.
  induction ts as [|t ts IH]; cbn; intros H; constructor; [lia|].
  apply IH. lia.
Qed.

Section clean_facts.
Context {Transaction ValueArray : Type}.
Implicit Types s : Store Transaction ValueArray.

Lemma clean_children f ts :
  Forall (λ t, ∀ s, tree_in (executors s) t → NoDup (tree_addrs t) →
               ∃ s', CleanExecutorTree f (Some (tree_addr t)) s = Done (tt, s')
                     ∧ cleaned (tree_addrs t) (postorder t) s s') ts →
  ∀ s, Forall (tree_in (executors s)) ts →
       NoDup (ts ≫= tree_addrs) →
       ∃ s', for_each (λ child, CleanExecutorTree f child)
               (map (λ t', Some (tree_addr t')) ts) s = Done (tt, s')
             ∧ cleaned (ts ≫= tree_addrs) (ts ≫= postorder) s s'.
Proof.
  induction 1 as [|t ts Ht _ IH]; intros s Hin Hnd.
  { exists s. split; [done|]. split; [by rewrite app_nil_r|].
    repeat split; try done. intros x Hx. by apply elem_of_nil in Hx. }
  apply Forall_cons in Hin as [Htin Htsin].
  cbn [mbind list_bind] in Hnd. apply NoDup_app in Hnd as (Hndt & Hdisj & Hndts).
  destruct (Ht s Htin Hndt) as (s1 & Hrun1 & Hdel1 & Hctx1 & Hlen1 & Hnone1 & Hsame1).
  destruct (IH s1) as (s' & Hrun & Hdel & Hctx & Hlen & Hnone & Hsame).
  { apply Forall_forall. intros t' Ht'. rewrite Forall_forall in Htsin.
    eapply tree_in_frame; [|by apply Htsin]. intros x Hx. apply Hsame1.
    intros Hxt. apply (Hdisj x Hxt). by eapply elem_of_tree_addrs_sub. }
  { done. }
  exists s'. split.
  { cbn [map for_each]. by rewrite bind_run, Hrun1. }
  split. { cbn [mbind list_bind]. by rewrite Hdel, Hdel1, <-app_assoc. }
  split; [congruence|]. split; [congruence|]. split.
  - intros x Hx. cbn [mbind list_bind] in Hx.
    destruct (decide (x ∈ ts ≫= tree_addrs)) as [Hr|Hr]; [by apply Hnone|].
    rewrite Hsame by done. apply Hnone1.
    apply elem_of_app in Hx as [Hx|Hx]; done.
  - intros x Hx. cbn [mbind list_bind] in Hx.
    rewrite Hsame, Hsame1; [done| |]; intros Hx'; apply Hx, elem_of_app; auto.
Qed.

Lemma CleanExecutorTree_step f a :
  CleanExecutorTree (Transaction := Transaction) (ValueArray := ValueArray)
    (S f) (Some a)
  = (let* children := GetChildren (Some a) in
     for_each (λ child, CleanExecutorTree f child) children ;;;
     delete_executor (Some a)).
Proof. reflexivity. Qed.

(** Teardown of a tree that lies in the store without sharing: every node
    is deleted once, children first, and nothing else is touched. *)
Lemma CleanExecutorTree_tree t :
  ∀ fuel s,
    tree_in (executors s) t → NoDup (tree_addrs t) → tree_height t ≤ fuel →
    ∃ s', CleanExecutorTree fuel (Some (tree_addr t)) s = Done (tt, s')
          ∧ cleaned (tree_addrs t) (postorder t) s s'.
Proof.
  induction t as [a e ts IH] using ExecTree_nested_ind. intros fuel s Hin Hnd Hh.
  apply tree_in_node in Hin as (He & Hc & Hts).
  rewrite tree_addrs_node in Hnd. apply NoDup_cons in Hnd as [Ha Hnd].
  cbn [tree_height] in Hh. destruct fuel as [|f]; [lia|].
  apply le_S_n, tree_height_children in Hh.
  assert (Forall (λ t, ∀ s, tree_in (executors s) t → NoDup (tree_addrs t) →
               ∃ s', CleanExecutorTree f (Some (tree_addr t)) s = Done (tt, s')
                     ∧ cleaned (tree_addrs t) (postorder t) s s') ts) as IH'.
  { apply Forall_forall. intros t Ht s0 Hin0 Hnd0.
    rewrite Forall_forall in IH, Hh. apply IH; [done..|]. by apply Hh. }
  destruct (clean_children f ts IH' s Hts Hnd)
    as (s1 & Hrun & Hdel & Hctx & Hlen & Hnone & Hsame).
  assert (a < length (executors s)) as Hlt by by eapply lookup_lt_Some.
  exists (mkStore (<[a := None]> (executors s1)) (contexts s1)
                  (deleted s1 ++ [a])).
  split.
  { cbn [tree_addr]. rewrite CleanExecutorTree_step. unfold GetChildren, deref.
    rewrite !bind_run, He. cbn [ret]. rewrite Hc, bind_run, Hrun.
    unfold delete_executor, deref. rewrite bind_run, (Hsame a Ha), He.
    reflexivity. }
  unfold cleaned. cbn [executors contexts deleted].
  rewrite tree_addrs_node. cbn [postorder].
  split. { by rewrite Hdel, <-app_assoc. }
  split; [done|]. split. { by rewrite length_insert. }
  split.
  - intros x [->|Hx]%elem_of_cons.
    + apply list_lookup_insert_eq. lia.
    + rewrite list_lookup_insert_ne; [by apply Hnone|]. by intros ->.
  - intros x Hx. apply not_elem_of_cons in Hx as [Hne Hx].
    rewrite list_lookup_insert_ne by done. by apply Hsame.
Qed.
End clean_facts.

(** ** The driver: single steps *)

Section driver_steps.
Context {ParamListInfo ValueArray Tuple Slot TupleDesc OpState : Type}.
Implicit Types w : World (ValueArray := ValueArray) (Tuple := Tuple)
                         (OpState := OpState).
Implicit Types f : Store TransactionPtr ValueArray → nat → OpState → Result →
                   bool * OpState * Result.

Lemma on_store_run {A : Type} (m : M (Store TransactionPtr ValueArray) A) w :
  on_store m w
  = match m (store w) with
    | Done (a, s') =>
        Done (a, mkWorld s' (txn_manager w) (op_state w) (executor_calls w))
    | Crash f => Crash f
    end.
Proof. reflexivity. Qed.

Lemma world_eta w :
  mkWorld (store w) (txn_manager w) (op_state w) (executor_calls w) = w.
Proof. by destruct w. Qed.

Lemma GetResult_run w txn_id r :
  txn_result w txn_id = Some r → GetResult (Some txn_id) w = Done (r, w).
Proof.
  unfold txn_result, GetResult. intros H. rewrite bind_run. cbn [get].
  by rewrite H.
Qed.

Lemma GetResult_inv w txn r w' :
  GetResult txn w = Done (r, w') →
  ∃ txn_id, txn = Some txn_id ∧ txn_result w txn_id = Some r ∧ w' = w.
Proof.
  unfold txn_result, GetResult. destruct txn as [txn_id|]; [|done].
  rewrite bind_run. cbn [get].
  destruct (txn_table (txn_manager w) !! txn_id) eqn:H; [|done].
  intros [= -> ->]. by exists txn_id.
Qed.

Lemma SetResult_run w txn_id r0 r :
  txn_result w txn_id = Some r0 →
  SetResult (Some txn_id) r w
  = Done (tt, mkWorld (store w)
                (mkTransactionManager
                   (<[txn_id := r]> (txn_table (txn_manager w)))
                   (txn_events (txn_manager w) ++ [SetResult_call txn_id r]))
                (op_state w) (executor_calls w)).
Proof.
  intros H. unfold SetResult. rewrite bind_run, (GetResult_run _ _ _ H).
  reflexivity.
Qed.

Lemma call_with_result_run f w a txn_id e r :
  executors (store w) !! a = Some (Some e) →
  txn_result w txn_id = Some r →
  call_with_result f (Some a) (Some txn_id) w
  = Done ((f (store w) a (op_state w) r).1.1,
          mkWorld (store w)
            (mkTransactionManager
               (<[txn_id := (f (store w) a (op_state w) r).2]>
                  (txn_table (txn_manager w)))
               (txn_events (txn_manager w)))
            (f (store w) a (op_state w) r).1.2 (executor_calls w)).
Proof.
  intros He Hr. unfold call_with_result.
  rewrite bind_run, on_store_run. unfold deref. rewrite He, world_eta.
  rewrite bind_run, (GetResult_run _ _ _ Hr). rewrite bind_run. cbn [get].
  by destruct (f (store w) a (op_state w) r) as [[status o] r'].
Qed.

Lemma call_with_result_inv f executor_tree txn w status w' :
  call_with_result f executor_tree txn w = Done (status, w') →
  ∃ a txn_id e r,
    executor_tree = Some a ∧ txn = Some txn_id
    ∧ executors (store w) !! a = Some (Some e)
    ∧ txn_result w txn_id = Some r.
Proof.
  unfold call_with_result. rewrite bind_run, on_store_run. unfold deref.
  destruct executor_tree as [a|]; [|done].
  destruct (executors (store w) !! a) as [[e|]|] eqn:He; [|done..].
  rewrite world_eta, bind_run.
  destruct (GetResult txn w) as [[r w1]|] eqn:Hr; [|done].
  apply GetResult_inv in Hr as (txn_id & -> & Hr & ->).
  intros _. by exists a, txn_id, e, r.
Qed.

(** [Init] on a live root with a known transaction. *)
Lemma Init_run f w a txn_id e r :
  executors (store w) !! a = Some (Some e) →
  txn_result w txn_id = Some r →
  Init f (Some a) (Some txn_id) w
  = Done ((f (store w) a (op_state w) r).1.1,
          after_call w txn_id (f (store w) a (op_state w) r).1.2
            (f (store w) a (op_state w) r).2
            (Init_call (f (store w) a (op_state w) r).1.1)).
Proof.
  intros He Hr. unfold Init.
  by rewrite bind_run, (call_with_result_run _ _ _ _ _ _ He Hr).
Qed.

Lemma Execute_run f w a txn_id e r :
  executors (store w) !! a = Some (Some e) →
  txn_result w txn_id = Some r →
  Execute f (Some a) (Some txn_id) w
  = Done ((f (store w) a (op_state w) r).1.1,
          after_call w txn_id (f (store w) a (op_state w) r).1.2
            (f (store w) a (op_state w) r).2
            (Execute_call (f (store w) a (op_state w) r).1.1)).
Proof.
  intros He Hr. unfold Execute.
  by rewrite bind_run, (call_with_result_run _ _ _ _ _ _ He Hr).
Qed.

Lemma Init_inv f executor_tree txn w status w' :
  Init f executor_tree txn w = Done (status, w') →
  ∃ a txn_id e r,
    executor_tree = Some a ∧ txn = Some txn_id
    ∧ executors (store w) !! a = Some (Some e)
    ∧ txn_result w txn_id = Some r
    ∧ status = (f (store w) a (op_state w) r).1.1
    ∧ w' = after_call w txn_id (f (store w) a (op_state w) r).1.2
             (f (store w) a (op_state w) r).2 (Init_call status).
Proof.
  intros H. pose proof H as H'. unfold Init in H'. rewrite bind_run in H'.
  destruct (call_with_result f executor_tree txn w) as [[b w1]|] eqn:Hc; [|done].
  apply call_with_result_inv in Hc as (a & txn_id & e & r & -> & -> & He & Hr).
  rewrite (Init_run _ _ _ _ _ _ He Hr) in H. injection H as <- <-.
  by exists a, txn_id, e, r.
Qed.

Lemma Execute_inv f executor_tree txn w status w' :
  Execute f executor_tree txn w = Done (status, w') →
  ∃ a txn_id e r,
    executor_tree = Some a ∧ txn = Some txn_id
    ∧ executors (store w) !! a = Some (Some e)
    ∧ txn_result w txn_id = Some r
    ∧ status = (f (store w) a (op_state w) r).1.1
    ∧ w' = after_call w txn_id (f (store w) a (op_state w) r).1.2
             (f (store w) a (op_state w) r).2 (Execute_call status).
Proof.
  intros H. pose proof H as H'. unfold Execute in H'. rewrite bind_run in H'.
  destruct (call_with_result f executor_tree txn w) as [[b w1]|] eqn:Hc; [|done].
  apply call_with_result_inv in Hc as (a & txn_id & e & r & -> & -> & He & Hr).
  rewrite (Execute_run _ _ _ _ _ _ He Hr) in H. injection H as <- <-.
  by exists a, txn_id, e, r.
Qed.

Lemma GetOutput_inv
    (g : Store TransactionPtr ValueArray → nat → OpState →
         option (LogicalTile Tuple) * OpState)
    executor_tree w tile w' :
  GetOutput g executor_tree w = Done (tile, w') →
  store w' = store w ∧ txn_manager w' = txn_manager w
  ∧ executor_calls w' = executor_calls w ++ [GetOutput_call tile].
Proof.
  unfold GetOutput. rewrite bind_run, on_store_run. unfold deref.
  destruct executor_tree as [a|]; [|done].
  destruct (executors (store w) !! a) as [[e|]|] eqn:He; [|done..].
  rewrite world_eta, bind_run. cbn [get].
  destruct (g (store w) a (op_state w)) as [tile' o].
  intros [= <- <-]. done.
Qed.

Lemma after_call_store w txn_id o r c :
  store (after_call w txn_id o r c) = store w.
Proof. reflexivity. Qed.

Lemma after_call_events w txn_id o r c :
  events (after_call w txn_id o r c) = events w.
Proof. reflexivity. Qed.

Lemma after_call_calls w txn_id o r c :
  executor_calls (after_call w txn_id o r c) = executor_calls w ++ [c].
Proof. reflexivity. Qed.

Lemma after_call_result w txn_id o r c :
  txn_result (after_call w txn_id o r c) txn_id = Some r.
Proof. unfold txn_result. cbn. apply lookup_insert_eq. Qed.
End driver_steps.

(** ** The driver: the pull loop *)

Section pull_loop_facts.
Context {ValueArray Tuple Slot TupleDesc OpState : Type}.
Variable GetPostgresTuple : Tuple → TupleDesc → option Slot.
Variable executor_Execute :
  Store TransactionPtr ValueArray → nat → OpState → Result →
  bool * OpState * Result.
Variable executor_GetOutput :
  Store TransactionPtr ValueArray → nat → OpState →
  option (LogicalTile Tuple) * OpState.
Implicit Types w : World (ValueArray := ValueArray) (Tuple := Tuple)
                         (OpState := OpState).

Local Abbreviation pull_loop' :=
  (pull_loop GetPostgresTuple executor_Execute executor_GetOutput).

(** The inner loop appends, in storage order, the host rows of the tuples
    that have one. *)
Lemma collect_slots_omap (tile_itr : list Tuple) (tuple_desc : TupleDesc)
    (slots : list Slot) :
  collect_slots GetPostgresTuple tile_itr tuple_desc slots
  = slots ++ omap (λ tuple, GetPostgresTuple tuple tuple_desc) tile_itr.
Proof.
  revert slots. induction tile_itr as [|tuple tile_itr IH]; intros slots.
  { cbn. by rewrite app_nil_r. }
  cbn [collect_slots omap list_omap].
  destruct (GetPostgresTuple tuple tuple_desc) as [slot|]; rewrite IH; [|done].
  by rewrite <-app_assoc.
Qed.

Lemma pull_loop_step fuel executor_tree txn (tuple_desc : TupleDesc)
    (slots : list Slot) :
  pull_loop' (S fuel) executor_tree txn tuple_desc slots
  = (let* status := Execute executor_Execute executor_tree txn in
     if negb status then ret slots
     else
       let* tile := GetOutput executor_GetOutput executor_tree in
       match tile with
       | None => pull_loop' fuel executor_tree txn tuple_desc slots
       | Some tile =>
           let base_tile := GetBaseTile tile 0 in
           assert_ptr base_tile ;;;
           match base_tile with
           | Some base_tile =>
               let slots :=
                 collect_slots GetPostgresTuple (tile_tuples base_tile)
                   tuple_desc slots in
               pull_loop' fuel executor_tree txn tuple_desc slots
           | None => crash AssertionFailure
           end
       end).
Proof. reflexivity. Qed.

(** A run of the pull loop that returns has pulled some batches [tiles],
    one per [Execute] that returned true, and stopped at the first
    [Execute] that returned false; the rows returned are the rows on entry
    followed by the rows of the batches, in pull order. *)
Lemma pull_loop_inv fuel executor_tree txn (tuple_desc : TupleDesc) :
  ∀ slots w slots' w',
    pull_loop' fuel executor_tree txn tuple_desc slots w = Done (slots', w') →
    ∃ tiles,
      length tiles < fuel
      ∧ Forall has_base_tile tiles
      ∧ executor_calls w' = executor_calls w ++ pull_trace tiles
      ∧ slots' = slots ++ (tiles ≫= rows_of GetPostgresTuple tuple_desc)
      ∧ store w' = store w
      ∧ events w' = events w
      ∧ (∀ txn_id, txn = Some txn_id → is_Some (txn_result w' txn_id)).
Proof.
  induction fuel as [|fuel IH]; intros slots w slots' w'; [done|].
  rewrite pull_loop_step, bind_run.
  destruct (Execute executor_Execute executor_tree txn w) as [[status w1]|] eqn:HE;
    [|done].
  apply Execute_inv in HE as (a & txn_id & e & r & -> & -> & He & Hr & Hst & ->).
  destruct status; cbn [negb].
  - rewrite bind_run.
    destruct (GetOutput executor_GetOutput (Some a) _) as [[tile w2]|] eqn:HG;
      [|done].
    apply GetOutput_inv in HG as (Hst2 & Htm2 & Hc2).
    rewrite after_call_store in Hst2. rewrite after_call_calls in Hc2.
    assert (events w2 = events w) as Hev2.
    { unfold events. by rewrite Htm2. }
    destruct tile as [tile|].
    + destruct (GetBaseTile tile 0) as [base_tile|] eqn:Hb; [|done].
      cbn zeta. rewrite bind_run. cbn [assert_ptr ret].
      intros (tiles & Hlen & Hbt & Hc & Hs & Hst' & Hev & Hres)%IH.
      exists (Some tile :: tiles). split; [cbn; lia|].
      split. { constructor; [|done]. cbn. rewrite Hb. by eexists. }
      split.
      { rewrite Hc, Hc2. unfold pull_trace. cbn [mbind list_bind].
        by rewrite <-!app_assoc. }
      split.
      { rewrite Hs, collect_slots_omap. cbn [mbind list_bind rows_of].
        rewrite Hb. by rewrite <-app_assoc. }
      split; [congruence|]. split; [congruence|]. done.
    + intros (tiles & Hlen & Hbt & Hc & Hs & Hst' & Hev & Hres)%IH.
      exists (None :: tiles). split; [cbn; lia|].
      split. { by constructor. }
      split.
      { rewrite Hc, Hc2. unfold pull_trace. cbn [mbind list_bind].
        by rewrite <-!app_assoc. }
      split. { rewrite Hs. done. }
      split; [congruence|]. split; [congruence|]. done.
  - intros [= <- <-]. exists []. split; [cbn; lia|]. split; [done|].
    split. { by rewrite after_call_calls. }
    split. { cbn. by rewrite app_nil_r. }
    split; [done|]. split; [done|].
    intros ? [= <-]. rewrite after_call_result. by eexists.
Qed.

(** The result of the pull loop does not depend on the bound, once the
    bound is large enough for the loop to return. *)
Lemma pull_loop_fuel_mono fuel executor_tree txn (tuple_desc : TupleDesc) :
  ∀ fuel' slots w res,
    pull_loop' fuel executor_tree txn tuple_desc slots w = Done res →
    fuel ≤ fuel' →
    pull_loop' fuel' executor_tree txn tuple_desc slots w = Done res.
Proof.
  induction fuel as [|fuel IH]; intros fuel' slots w res; [done|].
  intros H Hle. destruct fuel' as [|fuel']; [lia|].
  rewrite pull_loop_step, bind_run in H. rewrite pull_loop_step, bind_run.
  destruct (Execute executor_Execute executor_tree txn w) as [[status w1]|];
    [|done].
  destruct status; cbn [negb] in *; [|done].
  rewrite bind_run in H. rewrite bind_run.
  destruct (GetOutput executor_GetOutput executor_tree w1) as [[tile w2]|];
    [|done].
  destruct tile as [tile|].
  - cbn zeta in *. destruct (GetBaseTile tile 0) as [base_tile|]; [|done].
    rewrite bind_run in H. rewrite bind_run. cbn [assert_ptr ret] in *.
    apply IH; [done|lia].
  - apply IH; [done|lia].
Qed.
End pull_loop_facts.

(** ** The driver: compilation and cleanup *)

Lemma compile_children_size cs ts :
  Forall (λ c, ∀ t, compiles_to c t → tree_size t ≤ plan_size c) cs →
  compile_children compiles_to cs ts →
  foldr (λ t' n, tree_size t' + n) 0 ts ≤ plans_size cs.
Proof.
  intros IH. revert ts. induction IH as [|c cs Hc _ IH]; intros ts.
  { by intros ->. }
  cbn [compile_children plans_size foldr].
  destruct (head_executor c).
  - destruct ts as [|t ts]; [done|]. intros [Ht Hts]. cbn [foldr].
    specialize (Hc t Ht). specialize (IH ts Hts). unfold plans_size in IH. lia.
  - intros Hts. specialize (IH ts Hts). unfold plans_size in IH. lia.
Qed.

(** The compiled tree has at most as many nodes as the plan. *)
Lemma compiles_to_size plan : ∀ t, compiles_to plan t → tree_size t ≤ plan_size plan.
Proof.
  induction plan as [|ty cs IH] using AbstractPlan_nested_ind; intros [a e ts];
    [done|].
  intros (_ & _ & _ & Hts). cbn [subtrees] in Hts. cbn [tree_size plan_size].
  apply le_n_S. by apply compile_children_size.
Qed.

Section compile_facts.
Context {Transaction ParamListInfo ValueArray : Type}.
Variable BuildParams : ParamListInfo → ValueArray.
Implicit Types s : Store Transaction ValueArray.

(** Lines 242-247 never fault: they end with a null tree when no executor
    is constructed for the plan's root, and otherwise with a tree that lies
    in the store without sharing. *)
Lemma compile_total plan (param_list : ParamListInfo) (txn : Transaction) s :
  ∃ executor_tree s',
    bind (BuildExecutorTree BuildParams None plan param_list txn)
         AddMaterialization s = Done (executor_tree, s')
    ∧ deleted s' = deleted s
    ∧ match head_executor plan with
      | None => executor_tree = None
      | Some _ =>
          ∃ t, executor_tree = Some (tree_addr t)
               ∧ tree_in (executors s') t
               ∧ NoDup (tree_addrs t)
               ∧ tree_size t ≤ S (plan_size plan)
      end.
Proof.
  destruct (BuildExecutorTree_post BuildParams plan param_list txn None s I)
    as (root1 & s1 & Hrun & _ & Hdel & Hhead).
  rewrite bind_run, Hrun.
  destruct (head_executor plan) as [K|] eqn:HK.
  - destruct Hhead as (_ & t & Hta & Htin & Htc & Htw & Hnd & ->).
    destruct plan as [|ty cs]; [done|].
    destruct t as [a e ts]. cbn [tree_addr] in Hta. subst a.
    pose proof Htin as (He & _)%tree_in_node.
    pose proof Htc as (_ & Hnode & _). cbn [tree_executor] in Hnode.
    rewrite (AddMaterialization_run s1 _ e ty cs He Hnode).
    pose proof (compiles_to_size _ _ Htc) as Hsize.
    destruct (needs_materialization ty).
    + eexists _, _. split; [reflexivity|]. split; [done|].
      set (n := length (executors s)) in *.
      exists (ExecNode (length (executors s1)) (materialization_over (Some n))
                       [ExecNode n e ts]).
      split; [done|]. cbn [executors].
      unfold tree_within in Htw. rewrite Forall_forall in Htw.
      split.
      { apply tree_in_node. split; [by apply list_lookup_middle|].
        split; [done|]. constructor; [|done].
        eapply tree_in_frame; [|exact Htin]. intros x Hx.
        apply lookup_app_l. by apply Htw. }
      split.
      { rewrite tree_addrs_node. cbn [mbind list_bind]. rewrite app_nil_r.
        constructor; [|done]. intros Hx. specialize (Htw _ Hx). lia. }
      cbn [tree_size foldr] in *. lia.
    + eexists _, _. split; [reflexivity|]. split; [done|].
      exists (ExecNode (length (executors s)) e ts).
      split; [done|]. split; [done|]. split; [done|]. lia.
  - destruct Hhead as [-> _]. exists None, s1. done.
Qed.
End compile_facts.

(** Unfold the monadic steps of the driver one after the other. *)
Ltac msimpl :=
  repeat first
    [ rewrite bind_run
    | rewrite on_store_run
    | progress cbn [ret get modify assert_ptr txn_event write_result
                    write_op_state executor_call store txn_manager op_state
                    executor_calls txn_table txn_events] ].

Tactic Notation "msimpl" "in" hyp(H) :=
  repeat first
    [ rewrite bind_run in H
    | rewrite on_store_run in H
    | progress cbn [ret get modify assert_ptr txn_event write_result
                    write_op_state executor_call store txn_manager op_state
                    executor_calls txn_table txn_events] in H ].

Section driver_facts.
Context {ParamListInfo ValueArray Tuple Slot TupleDesc OpState : Type}.
Variable BuildParams : ParamListInfo → ValueArray.
Implicit Types w : World (ValueArray := ValueArray) (Tuple := Tuple)
                         (OpState := OpState).

Lemma after_lookup_result w txn_id :
  is_Some (txn_table (after_lookup w txn_id) !! txn_id).
Proof.
  unfold after_lookup. destruct (txn_result w txn_id) as [r|] eqn:Hr; cbn.
  - by exists r.
  - rewrite lookup_insert_eq. by eexists.
Qed.

Lemma GetPGTransaction_run txn_id w :
  GetPGTransaction txn_id w
  = Done (match txn_result w txn_id with
          | Some _ => Some txn_id
          | None => None
          end,
          mkWorld (store w)
            (mkTransactionManager (txn_table (txn_manager w))
               (events w ++ [GetPGTransaction_call txn_id]))
            (op_state w) (executor_calls w)).
Proof.
  unfold GetPGTransaction, txn_result, events. rewrite !bind_run.
  cbn [txn_event modify]. rewrite bind_run. cbn [get txn_manager txn_table].
  by destruct (txn_table (txn_manager w) !! txn_id).
Qed.

(** Lines 229-247 in one step. *)
Lemma ExecutePlan_setup_run plan (param_list : ParamListInfo) txn_id w
    executor_tree s' :
  bind (BuildExecutorTree BuildParams None plan param_list (Some txn_id))
       AddMaterialization (store w) = Done (executor_tree, s') →
  ExecutePlan_setup BuildParams plan param_list txn_id w
  = Done ((bool_decide (txn_result w txn_id = None), Some txn_id,
           executor_tree),
          mkWorld s' (after_lookup w txn_id) (op_state w) (executor_calls w)).
Proof.
  intros Hc. rewrite bind_run in Hc.
  unfold ExecutePlan_setup. rewrite bind_run, GetPGTransaction_run.
  unfold after_lookup.
  destruct (txn_result w txn_id) as [r|] eqn:Hr.
  - msimpl.
    destruct (BuildExecutorTree _ _ _ _ _ _) as [[root1 s1]|]; [|done].
    msimpl. rewrite Hc. reflexivity.
  - unfold StartPGTransaction. msimpl.
    destruct (BuildExecutorTree _ _ _ _ _ _) as [[root1 s1]|]; [|done].
    msimpl. rewrite Hc. msimpl. by rewrite <-app_assoc.
Qed.

(** The code under [cleanup], given that the teardown succeeds. *)
Lemma cleanup_run fuel (single_statement_txn init_failure : bool) txn_id
    executor_tree (pstatus : Peloton_Status Slot) w r s' :
  txn_result w txn_id = Some r →
  CleanExecutorTree fuel executor_tree (store w) = Done (tt, s') →
  cleanup fuel single_statement_txn init_failure (Some txn_id) executor_tree
    pstatus w
  = Done (mkStatus r (m_result_slots pstatus),
          mkWorld s'
            (mkTransactionManager (txn_table (txn_manager w))
               (events w
                ++ finalization single_statement_txn init_failure txn_id r))
            (op_state w) (executor_calls w)).
Proof.
  intros Hr Hclean. unfold cleanup, finalization, events.
  destruct (single_statement_txn || init_failure).
  - rewrite !bind_run, (GetResult_run _ _ _ Hr).
    destruct r; cbn [CommitTransaction AbortTransaction]; msimpl;
      rewrite Hclean; msimpl; (erewrite GetResult_run; [|exact Hr]); done.
  - msimpl. rewrite Hclean. msimpl. erewrite GetResult_run; [|exact Hr].
    rewrite app_nil_r. by destruct (txn_manager w).
Qed.

(** The code under [cleanup], when it returns. *)
Lemma cleanup_inv fuel (single_statement_txn init_failure : bool) txn
    executor_tree (pstatus : Peloton_Status Slot) w st w' :
  cleanup fuel single_statement_txn init_failure txn executor_tree pstatus w
  = Done (st, w') →
  ∃ txn_id r s',
    txn = Some txn_id
    ∧ txn_result w txn_id = Some r
    ∧ CleanExecutorTree fuel executor_tree (store w) = Done (tt, s')
    ∧ st = mkStatus r (m_result_slots pstatus)
    ∧ w' = mkWorld s'
             (mkTransactionManager (txn_table (txn_manager w))
                (events w
                 ++ finalization single_statement_txn init_failure txn_id r))
             (op_state w) (executor_calls w).
Proof.
  intros H.
  assert (∃ txn_id r, txn = Some txn_id ∧ txn_result w txn_id = Some r)
    as (txn_id & r & -> & Hr).
  { unfold cleanup in H. destruct txn as [txn_id|].
    - exists txn_id. destruct (txn_result w txn_id) as [r|] eqn:Hr; [by eexists|].
      exfalso. unfold txn_result in Hr.
      destruct (single_statement_txn || init_failure).
      + cbn [GetResult] in H. msimpl in H. by rewrite Hr in H.
      + msimpl in H.
        destruct (CleanExecutorTree _ _ _) as [[[] s']|]; [|done].
        cbn [GetResult] in H. msimpl in H. by rewrite Hr in H.
    - exfalso. destruct (single_statement_txn || init_failure).
      + cbn [GetResult] in H. by msimpl in H.
      + msimpl in H.
        destruct (CleanExecutorTree _ _ _) as [[[] s']|]; [|done].
        cbn [GetResult] in H. by msimpl in H. }
  destruct (CleanExecutorTree fuel executor_tree (store w)) as [[[] s']|] eqn:Hc.
  - rewrite (cleanup_run _ _ _ _ _ _ _ _ _ Hr Hc) in H. injection H as <- <-.
    by exists txn_id, r, s'.
  - exfalso. unfold cleanup in H.
    destruct (single_statement_txn || init_failure).
    + rewrite !bind_run, (GetResult_run _ _ _ Hr) in H.
      destruct r; cbn [CommitTransaction AbortTransaction] in H;
        msimpl in H; by rewrite Hc in H.
    + msimpl in H. by rewrite Hc in H.
Qed.
End driver_facts.

(** ** [ExecutePlan]: main results *)

Section execute_plan_results.
Context {ParamListInfo ValueArray Tuple Slot TupleDesc OpState : Type}.
Variable BuildParams : ParamListInfo → ValueArray.
Variable GetPostgresTuple : Tuple → TupleDesc → option Slot.
Variable executor_Init :
  Store TransactionPtr ValueArray → nat → OpState → Result →
  bool * OpState * Result.
Variable executor_Execute :
  Store TransactionPtr ValueArray → nat → OpState → Result →
  bool * OpState * Result.
Variable executor_GetOutput :
  Store TransactionPtr ValueArray → nat → OpState →
  option (LogicalTile Tuple) * OpState.
Implicit Types w : World (ValueArray := ValueArray) (Tuple := Tuple)
                         (OpState := OpState).
Implicit Types pstatus : Peloton_Status Slot.

Local Abbreviation ExecutePlan' :=
  (ExecutePlan BuildParams GetPostgresTuple executor_Init executor_Execute
               executor_GetOutput).
Local Abbreviation pull_loop' :=
  (pull_loop GetPostgresTuple executor_Execute executor_GetOutput).

(** C8, amended: for a null plan [ExecutePlan] returns at once: the
    caller's status is as it was on entry, the rows it held included (line
    218 returns before anything is written to it), and the world is
    untouched, so that no transaction was looked up, started, committed or
    aborted and no Result was set. *)
Theorem ExecutePlan_null_plan fuel (param_list : ParamListInfo)
    (tuple_desc : TupleDesc) pstatus txn_id w :
  ExecutePlan BuildParams GetPostgresTuple executor_Init executor_Execute
    executor_GetOutput fuel null_plan param_list tuple_desc pstatus txn_id w
  = Done (pstatus, w).
Proof. reflexivity. Qed.

(** C1: on a plan none of whose tags is supported, [BuildExecutorTree]
    returns [nullptr] without constructing an executor, and [ExecutePlan]
    then calls [Init] through that null pointer: nothing guards the call. *)
Theorem ExecutePlan_null_tree_dereferenced fuel plan
    (param_list : ParamListInfo) (tuple_desc : TupleDesc) pstatus txn_id w :
  plan ≠ null_plan →
  none_supported plan = true →
  (∃ s', BuildExecutorTree BuildParams None plan param_list (Some txn_id)
           (store w) = Done (None, s')
         ∧ executors s' = executors (store w))
  ∧ ExecutePlan' fuel plan param_list tuple_desc pstatus txn_id w
    = Crash NullDereference.
Proof.
  intros Hplan Hnone.
  pose proof (BuildExecutorTree_none_supported BuildParams plan param_list
                (Some txn_id) Hnone None (store w)) as Hbuild.
  split. { eexists. split; [exact Hbuild|done]. }
  destruct plan as [|ty cs]; [done|]. unfold ExecutePlan.
  rewrite bind_run. erewrite ExecutePlan_setup_run; [|by rewrite bind_run, Hbuild].
  reflexivity.
Qed.

(** C3, amended: when [Init] on the compiled root returns false, the
    transaction's Result is set to Failure, neither [Execute] nor
    [GetOutput] is called, the rows of the caller's status are as they were
    on entry (the [goto] of line 258 passes over the assignment of line
    303), the Result reported is Failure, and the cleanup runs: the
    transaction is aborted and the executor tree is torn down, children
    first. *)
Theorem init_failure_skips_to_cleanup fuel plan (param_list : ParamListInfo)
    (tuple_desc : TupleDesc) pstatus txn_id w
    single_statement_txn txn executor_tree w1 w2 :
  ExecutePlan_setup BuildParams plan param_list txn_id w
  = Done ((single_statement_txn, txn, executor_tree), w1) →
  Init executor_Init executor_tree txn w1 = Done (false, w2) →
  plan ≠ null_plan →
  S (plan_size plan) ≤ fuel →
  ∃ w' t,
    ExecutePlan' fuel plan param_list tuple_desc pstatus txn_id w
    = Done (mkStatus RESULT_FAILURE (m_result_slots pstatus), w')
    ∧ txn_result w' txn_id = Some RESULT_FAILURE
    ∧ executor_calls w' = executor_calls w ++ [Init_call false]
    ∧ events w'
      = events w1 ++ [SetResult_call txn_id RESULT_FAILURE;
                      AbortTransaction_call txn_id]
    ∧ executor_tree = Some (tree_addr t)
    ∧ tree_in (executors (store w1)) t
    ∧ deleted (store w') = deleted (store w) ++ postorder t
    ∧ (∀ x, x ∈ tree_addrs t → executors (store w') !! x = Some None).
Proof.
  intros Hsetup Hinit Hplan Hfuel.
  destruct (compile_total BuildParams plan param_list (Some txn_id) (store w))
    as (tree0 & s1 & Hc & Hdel & Hhead).
  rewrite (ExecutePlan_setup_run _ _ _ _ _ _ _ Hc) in Hsetup.
  injection Hsetup as <- <- <- <-.
  pose proof Hinit as Hinit'.
  apply Init_inv in Hinit' as (a & txn_id' & e & r & -> & [= <-] & He & Hr & Hst & ->).
  destruct (head_executor plan); [|done].
  destruct Hhead as (t & [= ->] & Htin & Hnd & Hsize).
  cbn [store] in He.
  set (w1 := mkWorld s1 (after_lookup w txn_id) (op_state w) (executor_calls w)) in *.
  set (w2 := after_call w1 txn_id _ _ _) in *.
  assert (txn_result w2 txn_id = Some (executor_Init s1 (tree_addr t) (op_state w) r).2)
    as Hr2 by apply after_call_result.
  destruct (CleanExecutorTree_tree t fuel s1 Htin Hnd)
    as (s' & Hclean & Hdel' & _ & _ & Hnone & _).
  { pose proof (tree_height_le_size t). lia. }
  eexists _, t. split.
  { destruct plan as [|ty cs]; [done|]. unfold ExecutePlan.
    rewrite bind_run.
    rewrite (ExecutePlan_setup_run _ _ _ _ _ _ _ Hc).
    unfold ExecutePlan_run. rewrite bind_run. fold w1. rewrite Hinit.
    cbn [negb]. rewrite bind_run, (SetResult_run _ _ _ _ Hr2).
    erewrite cleanup_run; [reflexivity| |exact Hclean].
    unfold txn_result. cbn. apply lookup_insert_eq. }
  cbn [store txn_manager executor_calls]. unfold txn_result, events.
  cbn [txn_manager txn_table txn_events finalization orb].
  split. { by rewrite lookup_insert_eq. }
  split; [done|]. split. { unfold finalization. by rewrite orb_true_r, <-app_assoc. }
  split; [done|]. split; [done|]. split; [congruence|done].
Qed.

(** C2: a call that returns has asked the transaction manager for exactly
    this: the lookup; the start, when the lookup found no transaction (the
    transaction is then implicit); the Failure, when [Init] returned false;
    and then one commit or one abort if the transaction is implicit or
    [Init] returned false, a commit when the Result of the transaction is
    Success and an abort otherwise, and neither a commit nor an abort if
    the transaction existed before and [Init] returned true. *)
Theorem finalization_decision fuel plan (param_list : ParamListInfo)
    (tuple_desc : TupleDesc) pstatus txn_id w st w' :
  plan ≠ null_plan →
  ExecutePlan' fuel plan param_list tuple_desc pstatus txn_id w
  = Done (st, w') →
  ∃ status calls,
    executor_calls w' = executor_calls w ++ Init_call status :: calls
    ∧ txn_result w' txn_id = Some (m_result st)
    ∧ events w'
      = events w
        ++ [GetPGTransaction_call txn_id]
        ++ (if bool_decide (txn_result w txn_id = None)
            then [StartPGTransaction_call txn_id] else [])
        ++ (if status then [] else [SetResult_call txn_id RESULT_FAILURE])
        ++ (if bool_decide (txn_result w txn_id = None) || negb status
            then [match m_result st with
                  | RESULT_SUCCESS => CommitTransaction_call txn_id
                  | _ => AbortTransaction_call txn_id
                  end]
            else []).
Proof.
  intros Hplan H. destruct plan as [|ty cs]; [done|].
  unfold ExecutePlan in H. rewrite bind_run in H.
  destruct (compile_total BuildParams (PlanNode ty cs) param_list (Some txn_id)
              (store w)) as (tree0 & s1 & Hc & _ & _).
  rewrite (ExecutePlan_setup_run _ _ _ _ _ _ _ Hc) in H.
  set (implicit := bool_decide (txn_result w txn_id = None)) in *.
  set (w1 := mkWorld s1 (after_lookup w txn_id) (op_state w) (executor_calls w)) in *.
  assert (txn_events (txn_manager w1)
          = txn_events (txn_manager w) ++ [GetPGTransaction_call txn_id]
            ++ (if implicit then [StartPGTransaction_call txn_id] else []))
    as Hev1.
  { unfold w1, implicit, after_lookup, events. cbn [txn_manager].
    destruct (txn_result w txn_id); cbn [txn_events].
    - rewrite bool_decide_eq_false_2 by done. done.
    - rewrite bool_decide_eq_true_2 by done. done. }
  unfold ExecutePlan_run in H. rewrite bind_run in H.
  destruct (Init executor_Init tree0 (Some txn_id) w1) as [[status w2]|] eqn:HI;
    [|done].
  apply Init_inv in HI as (a & ? & e & r & -> & [= <-] & He & Hr & Hst & ->).
  set (w2 := after_call w1 txn_id _ _ _) in *.
  exists status. destruct status; cbn [negb] in H.
  - rewrite bind_run in H.
    destruct (pull_loop' fuel (Some a) (Some txn_id) tuple_desc [] w2)
      as [[slots w3]|] eqn:HP; [|done].
    apply pull_loop_inv in HP as (tiles & _ & _ & Hcalls & _ & _ & Hev & _).
    apply cleanup_inv in H as (? & r' & s' & [= <-] & Hr' & _ & -> & ->).
    exists (pull_trace tiles). cbn [executor_calls m_result].
    split. { rewrite Hcalls. unfold w2. rewrite after_call_calls.
             by rewrite <-app_assoc. }
    split. { exact Hr'. }
    unfold events in *. cbn [txn_manager txn_events]. rewrite Hev.
    change (txn_events (txn_manager w2)) with (txn_events (txn_manager w1)).
    rewrite Hev1. unfold finalization. rewrite orb_false_r, <-!app_assoc.
    cbn [app]. by destruct implicit, r'.
  - rewrite bind_run in H.
    rewrite (SetResult_run w2 txn_id _ RESULT_FAILURE
               (after_call_result _ _ _ _ _)) in H.
    apply cleanup_inv in H as (? & r' & s' & [= <-] & Hr' & _ & -> & ->).
    exists []. cbn [executor_calls m_result].
    split. { unfold w2. by rewrite after_call_calls. }
    split. { exact Hr'. }
    unfold events. cbn [txn_manager txn_events].
    change (txn_events (txn_manager w2)) with (txn_events (txn_manager w1)).
    rewrite Hev1. unfold finalization. rewrite !orb_true_r, <-!app_assoc.
    cbn [app]. by destruct r'.
Qed.

(** C6: in the pull loop, an [Execute] that returns false ends the loop with
    the rows gathered so far; an [Execute] that returns true followed by a
    [GetOutput] that returns no batch leaves the rows as they are and goes
    on with the next iteration; and a loop that has returned has called
    [Execute] and [GetOutput] in turn, every [Execute] returning true but
    the last one, after which nothing more was called. *)
Theorem pull_loop_stops_when_Execute_false fuel executor_tree txn
    (tuple_desc : TupleDesc) (slots : list Slot) w :
  (∀ w1, Execute executor_Execute executor_tree txn w = Done (false, w1) →
         pull_loop' (S fuel) executor_tree txn tuple_desc slots w
         = Done (slots, w1))
  ∧ (∀ w1 w2,
       Execute executor_Execute executor_tree txn w = Done (true, w1) →
       GetOutput executor_GetOutput executor_tree w1 = Done (None, w2) →
       pull_loop' (S fuel) executor_tree txn tuple_desc slots w
       = pull_loop' fuel executor_tree txn tuple_desc slots w2)
  ∧ (∀ slots' w',
       pull_loop' fuel executor_tree txn tuple_desc slots w
       = Done (slots', w') →
       ∃ tiles,
         length tiles < fuel
         ∧ executor_calls w'
           = executor_calls w
             ++ (tiles ≫= λ tile, [Execute_call true; GetOutput_call tile])
             ++ [Execute_call false]
         ∧ ∀ fuel', fuel ≤ fuel' →
             pull_loop' fuel' executor_tree txn tuple_desc slots w
             = Done (slots', w')).
Proof.
  split; [|split].
  - intros w1 HE. by rewrite pull_loop_step, bind_run, HE.
  - intros w1 w2 HE HG. rewrite pull_loop_step, bind_run, HE. cbn [negb].
    by rewrite bind_run, HG.
  - intros slots' w' HP. pose proof HP as HP'.
    apply pull_loop_inv in HP' as (tiles & Hlen & _ & Hcalls & _).
    exists tiles. split; [done|]. split; [done|].
    intros fuel' Hle. by eapply pull_loop_fuel_mono.
Qed.

(** C7: the rows of a batch are converted one by one in storage order; a
    row without a host row is left out and the next one is converted, a
    row with a host row is appended to the rows gathered so far; and the
    rows returned by the pull loop are the rows on entry followed by those
    of every batch pulled, batch after batch in pull order. *)
Theorem rows_in_encounter_order fuel executor_tree txn
    (tuple_desc : TupleDesc) (slots : list Slot) w slots' w' :
  pull_loop' fuel executor_tree txn tuple_desc slots w = Done (slots', w') →
  (∀ tuple tile_itr slots0,
     collect_slots GetPostgresTuple (tuple :: tile_itr) tuple_desc slots0
     = match GetPostgresTuple tuple tuple_desc with
       | Some slot =>
           collect_slots GetPostgresTuple tile_itr tuple_desc (slots0 ++ [slot])
       | None => collect_slots GetPostgresTuple tile_itr tuple_desc slots0
       end)
  ∧ (∀ tile_itr slots0,
       collect_slots GetPostgresTuple tile_itr tuple_desc slots0
       = slots0 ++ omap (λ tuple, GetPostgresTuple tuple tuple_desc) tile_itr)
  ∧ ∃ tiles,
      executor_calls w' = executor_calls w ++ pull_trace tiles
      ∧ Forall has_base_tile tiles
      ∧ slots'
        = slots
          ++ (tiles ≫= λ tile,
                match tile with
                | None => []
                | Some tile =>
                    match GetBaseTile tile 0 with
                    | Some base_tile =>
                        omap (λ tuple, GetPostgresTuple tuple tuple_desc)
                             (tile_tuples base_tile)
                    | None => []
                    end
                end).
Proof.
  intros HP. split; [done|]. split; [intros; apply collect_slots_omap|].
  apply pull_loop_inv in HP as (tiles & _ & Hbt & Hcalls & Hslots & _).
  by exists tiles.
Qed.

(** C10: [CleanExecutorTree] returns without doing anything for [nullptr];
    for a tree that lies in the store it deletes every node once, the
    children of a node before the node, and touches nothing else; and the
    code under [cleanup] runs through when the executor tree is null. *)
Theorem CleanExecutorTree_total fuel (s : Store TransactionPtr ValueArray) t :
  tree_in (executors s) t →
  NoDup (tree_addrs t) →
  tree_height t ≤ fuel →
  (∀ fuel0 (s0 : Store TransactionPtr ValueArray),
     CleanExecutorTree fuel0 None s0 = Done (tt, s0))
  ∧ (∃ s', CleanExecutorTree fuel (Some (tree_addr t)) s = Done (tt, s')
           ∧ deleted s' = deleted s ++ postorder t
           ∧ NoDup (postorder t)
           ∧ postorder t ≡ₚ tree_addrs t
           ∧ (∀ x, x ∈ tree_addrs t → executors s' !! x = Some None)
           ∧ (∀ x, x ∉ tree_addrs t → executors s' !! x = executors s !! x)
           ∧ contexts s' = contexts s)
  ∧ (∀ fuel0 single_statement_txn init_failure txn_id pstatus w r,
       txn_result w txn_id = Some r →
       ∃ w', cleanup fuel0 single_statement_txn init_failure (Some txn_id)
               None pstatus w
             = Done (mkStatus r (m_result_slots pstatus), w')
             ∧ store w' = store w).
Proof.
  intros Hin Hnd Hh. split; [|split].
  - by intros [|fuel0] s0.
  - destruct (CleanExecutorTree_tree t fuel s Hin Hnd Hh)
      as (s' & Hrun & Hdel & Hctx & _ & Hnone & Hsame).
    exists s'. split; [done|]. split; [done|].
    split. { by rewrite postorder_perm. }
    split; [apply postorder_perm|]. done.
  - intros fuel0 sst initf txn_id pstatus w r Hr. eexists. split.
    + apply cleanup_run; [exact Hr|]. by destruct fuel0.
    + reflexivity.
Qed.
End execute_plan_results.

(** ** The results on the worked examples *)

Import Examples.

(** C9 on [gap_plan], three contexts for three plan nodes of which one has an
    unsupported tag, and on [invalid], one context and no executor. *)
Lemma BuildExecutorTree_one_context_per_node_witness :
  valid_ptr (executors empty_store) None
  ∧ (∃ root' s',
       BuildExecutorTree BuildParams None gap_plan tt (Some 7%N) empty_store
       = Done (root', s')
       ∧ contexts s'
         = replicate 3 (mkContext (Some 7%N) tt))
  ∧ (∃ s',
       BuildExecutorTree BuildParams None invalid tt (Some 7%N) empty_store
       = Done (None, s')
       ∧ contexts s' = [mkContext (Some 7%N) tt]
       ∧ executors s' = []).
Proof.
  split; [exact I|]. split.
  - destruct (BuildExecutorTree_one_context_per_node BuildParams gap_plan tt
                (Some 7%N) None empty_store I) as (root' & s' & Hrun & Hctx & _).
    by exists root', s'.
  - destruct (BuildExecutorTree_one_context_per_node BuildParams invalid tt
                (Some 7%N) None empty_store I)
      as (root' & s' & Hrun & Hctx & Hnone).
    destruct (Hnone eq_refl) as [-> Hex]. by exists s'.
Defined.

(** C5: a null root in the empty store, the scan at address 0 of
    [scan_store] before the materialization was added, and the insert of
    [insert_store]. *)
Lemma AddMaterialization_spec_witness :
  AddMaterialization None empty_store = Done (None, empty_store)
  ∧ AddMaterialization (Some 0)
      (mkStore [Some scan_executor] [mkContext (Some 7%N) tt] [])
    = Done (Some 1, scan_store)
  ∧ AddMaterialization (Some 0) insert_store = Done (Some 0, insert_store).
Proof.
  destruct (AddMaterialization_spec (Transaction := TransactionPtr)
              (ValueArray := unit)) as [Hnull Hroot].
  split; [exact (Hnull empty_store)|]. split.
  - destruct (Hroot (mkStore [Some scan_executor] [mkContext (Some 7%N) tt] [])
                0 scan_executor PLAN_NODE_TYPE_SEQSCAN [] eq_refl eq_refl)
      as [Hwrap _].
    apply Hwrap. do 2 right. left.
  - destruct (Hroot insert_store 0 _ PLAN_NODE_TYPE_INSERT [] eq_refl eq_refl)
      as [_ Hsame].
    apply Hsame. intros Hin.
    repeat (apply elem_of_cons in Hin as [Hin|Hin]; [discriminate Hin|]).
    by apply elem_of_nil in Hin.
Defined.

(** C5 as stated fails on the materialization at address 1 of [scan_store]:
    its class has the tag Materialization, which is none of the five, and
    it refers back to no plan node, so that line 189 reads the tag through a
    null pointer instead of returning the root. *)
Lemma AddMaterialization_executor_tag_counterexample :
  AddMaterialization (Some 1) scan_store = Crash NullDereference
  ∧ ¬ (executors scan_store !! 1 = Some (Some (materialization_over (Some 0))) →
       executor_tag (executor_kind (materialization_over (Some 0)))
       ∉ materialized_tags →
       AddMaterialization (Some 1) scan_store = Done (Some 1, scan_store)).
Proof.
  split; [reflexivity|]. intros Hclaim.
  enough (AddMaterialization (Some 1) scan_store = Done (Some 1, scan_store))
    as Hrun by discriminate Hrun.
  apply Hclaim; [reflexivity|]. intros Hin. unfold materialized_tags in Hin.
  repeat (apply elem_of_cons in Hin as [Hin|Hin]; [discriminate Hin|]).
  by apply elem_of_nil in Hin.
Qed.

(** C4, amended, on [join_plan]. *)
Lemma compiled_tree_mirrors_supported_plan_witness :
  all_supported join_plan = true
  ∧ compiled_like_plan BuildParams join_plan tt (Some 7%N) empty_store.
Proof.
  split; [reflexivity|].
  apply (compiled_tree_mirrors_supported_plan BuildParams join_plan tt
           (Some 7%N) empty_store).
  reflexivity.
Defined.

(** C4 as stated fails on [skip_plan]: the plan has two nodes, the compiled
    tree is a materialization over a limit that has no child. *)
Lemma compiled_like_plan_counterexample :
  ¬ compiled_like_plan BuildParams skip_plan tt (Some 7%N) empty_store.
Proof.
  intros (root & s' & t & Hrun & Htin & _ & Hsize & Hroot).
  vm_compute in Hrun. injection Hrun as <- <-.
  cbn [skip_plan] in Hroot. rewrite decide_True in Hroot by (do 4 right; left).
  destruct Hroot as [_ Hwrap]. apply tree_in_node in Hwrap as (Hcell & _ & _).
  cbn in Hcell. injection Hcell as Haddr.
  destruct t as [a e ts]. cbn [tree_addr] in Haddr. subst a.
  apply tree_in_node in Htin as (Hcell & Hchildren & _).
  cbn in Hcell. injection Hcell as <-. cbn [children_] in Hchildren.
  destruct ts; [|done]. vm_compute in Hsize. done.
Qed.

(** C1 on [invalid]. *)
Lemma ExecutePlan_null_tree_dereferenced_witness :
  invalid ≠ null_plan
  ∧ none_supported invalid = true
  ∧ run true invalid = Crash NullDereference.
Proof.
  split; [done|]. split; [reflexivity|].
  apply (ExecutePlan_null_tree_dereferenced BuildParams GetPostgresTuple
           executor_Init_ok executor_Execute executor_GetOutput 10 invalid tt tt
           status0 7%N fresh_world); [done|reflexivity].
Defined.

(** C3 on [scan] with operators whose [Init] fails and a status that holds
    a row on entry. *)
Lemma init_failure_skips_to_cleanup_witness :
  ∃ w' t,
    run_stale false scan = Done (mkStatus RESULT_FAILURE [9], w')
    ∧ txn_result w' 7%N = Some RESULT_FAILURE
    ∧ executor_calls w' = [Init_call false]
    ∧ events w'
      = [GetPGTransaction_call 7%N; StartPGTransaction_call 7%N;
         SetResult_call 7%N RESULT_FAILURE; AbortTransaction_call 7%N]
    ∧ Some 1 = Some (tree_addr t)
    ∧ deleted (store w') = postorder t.
Proof.
  edestruct (init_failure_skips_to_cleanup BuildParams GetPostgresTuple
               executor_Init_fails executor_Execute executor_GetOutput 10 scan
               tt tt stale_status 7%N fresh_world)
    as (w' & t & Hrun & Hres & Hcalls & Hev & Htree & _ & Hdel & _).
  - vm_compute. reflexivity.
  - vm_compute. reflexivity.
  - done.
  - vm_compute. lia.
  - exists w', t. repeat split; assumption.
Defined.

(** C3 as stated fails on [scan] with operators whose [Init] fails, called
    with [stale_status]: the call reports Failure and the status still
    holds the row 9, not zero rows. *)
Lemma init_failure_zero_rows_counterexample :
  (∃ w', run_stale false scan = Done (mkStatus RESULT_FAILURE [9], w')
         ∧ executor_calls w' = [Init_call false])
  ∧ ¬ (∃ st w', run_stale false scan = Done (st, w')
                ∧ m_result_slots st = []).
Proof.
  split.
  - eexists. split; vm_compute; reflexivity.
  - intros (st & w' & Hrun & Hrows). vm_compute in Hrun.
    injection Hrun as <- _. discriminate Hrows.
Qed.

(** C8 as stated fails on the null plan called with [stale_status]: the
    call returns with the row 9 still in the status, not with zero rows. *)
Lemma null_plan_zero_rows_counterexample :
  run_stale true null_plan = Done (stale_status, fresh_world)
  ∧ ¬ (∃ st w', run_stale true null_plan = Done (st, w')
                ∧ m_result_slots st = []).
Proof.
  split; [reflexivity|].
  intros (st & w' & Hrun & Hrows). vm_compute in Hrun.
  injection Hrun as <- _. discriminate Hrows.
Qed.

(** C2 on [scan]: the transaction is implicit and is committed. *)
Lemma finalization_decision_witness :
  ∃ st w',
    run true scan = Done (st, w')
    ∧ ∃ status calls,
        executor_calls w' = executor_calls fresh_world ++ Init_call status :: calls
        ∧ txn_result w' 7%N = Some (m_result st)
        ∧ events w'
          = events fresh_world
            ++ [GetPGTransaction_call 7%N]
            ++ (if bool_decide (txn_result fresh_world 7%N = None)
                then [StartPGTransaction_call 7%N] else [])
            ++ (if status then [] else [SetResult_call 7%N RESULT_FAILURE])
            ++ (if bool_decide (txn_result fresh_world 7%N = None) || negb status
                then [match m_result st with
                      | RESULT_SUCCESS => CommitTransaction_call 7%N
                      | _ => AbortTransaction_call 7%N
                      end]
                else []).
Proof.
  eexists _, _. split; [vm_compute; reflexivity|].
  eapply (finalization_decision BuildParams GetPostgresTuple executor_Init_ok
            executor_Execute executor_GetOutput 10 scan tt tt status0 7%N
            fresh_world); [done|].
  vm_compute. reflexivity.
Defined.

(** C6 on the operators of the examples: after three pulls [Execute] returns
    false; the second pull has no batch. *)
Lemma pull_loop_stops_when_Execute_false_witness :
  (∃ w1, pull_loop GetPostgresTuple executor_Execute executor_GetOutput 1
           (Some 1) (Some 7%N) tt [5] (ready_world 3) = Done ([5], w1))
  ∧ (∃ w2, pull_loop GetPostgresTuple executor_Execute executor_GetOutput 3
             (Some 1) (Some 7%N) tt [5] (ready_world 1)
           = pull_loop GetPostgresTuple executor_Execute executor_GetOutput 2
               (Some 1) (Some 7%N) tt [5] w2)
  ∧ ∃ slots' w' tiles,
      pull_loop GetPostgresTuple executor_Execute executor_GetOutput 10
        (Some 1) (Some 7%N) tt [] (ready_world 0) = Done (slots', w')
      ∧ length tiles < 10
      ∧ executor_calls w'
        = executor_calls (ready_world 0)
          ++ (tiles ≫= λ tile, [Execute_call true; GetOutput_call tile])
          ++ [Execute_call false].
Proof.
  split; [|split].
  - eexists.
    eapply (pull_loop_stops_when_Execute_false GetPostgresTuple executor_Execute
              executor_GetOutput 0 (Some 1) (Some 7%N) tt [5] (ready_world 3)).
    vm_compute. reflexivity.
  - eexists.
    eapply (pull_loop_stops_when_Execute_false GetPostgresTuple executor_Execute
              executor_GetOutput 2 (Some 1) (Some 7%N) tt [5] (ready_world 1)).
    + vm_compute. reflexivity.
    + vm_compute. reflexivity.
  - edestruct (pull_loop_stops_when_Execute_false GetPostgresTuple
                 executor_Execute executor_GetOutput 10 (Some 1) (Some 7%N) tt
                 [] (ready_world 0)) as (_ & _ & Hrun).
    edestruct Hrun as (tiles & Hlen & Hcalls & _).
    + vm_compute. reflexivity.
    + eexists _, _, tiles. split; [vm_compute; reflexivity|]. split; assumption.
Defined.

(** C7 on the operators of the examples: the rows 1 and 2 of the first
    batch (the tuple 0 has no host row), then the row 3 of the third. *)
Lemma rows_in_encounter_order_witness :
  ∃ w', pull_loop GetPostgresTuple executor_Execute executor_GetOutput 10
          (Some 1) (Some 7%N) tt [] (ready_world 0) = Done ([1; 2; 3], w')
        ∧ collect_slots GetPostgresTuple [1; 0; 2] tt [] = [1; 2].
Proof.
  eexists. split; [vm_compute; reflexivity|].
  edestruct (rows_in_encounter_order GetPostgresTuple executor_Execute
               executor_GetOutput 10 (Some 1) (Some 7%N) tt [] (ready_world 0))
    as (_ & Homap & _).
  - vm_compute. reflexivity.
  - rewrite Homap. reflexivity.
Defined.

(** C10 on the tree of [scan_store]. *)
Lemma CleanExecutorTree_total_witness :
  tree_in (executors scan_store) scan_tree
  ∧ NoDup (tree_addrs scan_tree)
  ∧ tree_height scan_tree ≤ 2
  ∧ CleanExecutorTree 2 (Some 1) scan_store
    = Done (tt, mkStore [None; None] [mkContext (Some 7%N) tt] [0; 1]).
Proof.
  assert (tree_in (executors scan_store) scan_tree) as Hin.
  { cbn. repeat split. }
  assert (NoDup (tree_addrs scan_tree)) as Hnd.
  { cbn. apply NoDup_cons. split; [|apply NoDup_singleton].
    intros H%list_elem_of_singleton. discriminate H. }
  assert (tree_height scan_tree ≤ 2) as Hh by (cbn; lia).
  split; [exact Hin|]. split; [exact Hnd|]. split; [exact Hh|].
  destruct (CleanExecutorTree_total (ValueArray := unit) (Tuple := nat)
              (Slot := nat) (OpState := nat) 2 scan_store scan_tree Hin Hnd Hh)
    as (_ & (s' & Hrun & _) & _).
  change (Some (tree_addr scan_tree)) with (Some 1) in Hrun.
  rewrite Hrun. vm_compute in Hrun. injection Hrun as <-. reflexivity.
Defined.

(** * Further results *)

(** ** More on [BuildExecutorTree] *)

Lemma bind_inv {S A B : Type} (m : M S A) (k : A → M S B) (s : S) r :
  bind m k s = Done r → ∃ a s1, m s = Done (a, s1) ∧ k a s1 = Done r.
Proof.
  rewrite bind_run. destruct (m s) as [[a s1]|]; [|done]. intros H.
  by exists a, s1.
Qed.

Lemma compile_children_pruned_size cs ts :
  Forall (λ c, ∀ t, compiles_to c t → tree_size t = pruned_size c) cs →
  compile_children compiles_to cs ts →
  foldr (λ t' n, tree_size t' + n) 0 ts
  = foldr (λ child n, pruned_size child + n) 0 cs.
Proof.
  intros IH. revert ts. induction IH as [|c cs Hc _ IH]; intros ts.
  { by intros ->. }
  cbn [compile_children foldr].
  destruct c as [|ty cs']; cbn [head_executor].
  { intros Hts. rewrite (IH ts Hts). done. }
  destruct (executor_for ty) as [K|] eqn:HK.
  - destruct ts as [|t ts]; [done|]. intros [Ht Hts]. cbn [foldr].
    by rewrite (Hc t Ht), (IH ts Hts).
  - intros Hts. rewrite (IH ts Hts). cbn [pruned_size]. by rewrite HK.
Qed.

(** The compiled tree has one node for every plan node that is reached from
    the root through supported nodes. *)
Lemma compiles_to_pruned_size plan :
  ∀ t, compiles_to plan t → tree_size t = pruned_size plan.
Proof.
  induction plan as [|ty cs IH] using AbstractPlan_nested_ind; intros [a e ts];
    [done|].
  intros (HK & _ & _ & Hts). cbn [subtrees] in Hts.
  cbn [tree_size pruned_size]. rewrite HK. f_equal.
  by apply compile_children_pruned_size.
Qed.

Section further_build.
Context {Transaction ParamListInfo ValueArray : Type}.
Variable BuildParams : ParamListInfo → ValueArray.
Implicit Types s : Store Transaction ValueArray.

Lemma grown_by_refl (h : list (option AbstractExecutor)) : grown_by 0 h h.
Proof.
  split; [lia|]. intros a Ha [Hv|Hge]; [done|lia].
Qed.

Lemma grown_by_trans n m (h1 h2 h3 : list (option AbstractExecutor)) :
  grown_by n h1 h2 → grown_by m h2 h3 → grown_by (n + m) h1 h3.
Proof.
  intros [Hl1 Hv1] [Hl2 Hv2]. split; [lia|]. intros a Ha Hor.
  apply Hv2; [done|]. destruct (decide (a < length h2)) as [Hlt|Hge]; [|right; lia].
  left. by apply Hv1.
Qed.

Lemma grown_by_new (h : list (option AbstractExecutor)) e :
  grown_by 1 h (h ++ [Some e]).
Proof.
  split; [rewrite length_app; cbn; lia|]. intros a Ha [[e' He']|Hge].
  - exists e'. rewrite lookup_app_l; [done|]. by eapply lookup_lt_Some.
  - rewrite length_app in Ha. cbn in Ha. assert (a = length h) as -> by lia.
    exists e. by apply list_lookup_middle.
Qed.

Lemma AddChild_grown p child s s' :
  AddChild p child s = Done (tt, s') →
  grown_by 0 (executors s) (executors s').
Proof.
  unfold AddChild, deref. rewrite bind_run. destruct p as [a|]; [|done].
  destruct (executors s !! a) as [[e|]|] eqn:He; [|done..].
  intros [= <-]. cbn. split; [rewrite length_insert; lia|].
  intros x Hx [[e' He']|Hge].
  - destruct (decide (a = x)) as [->|Hne].
    + eexists. apply list_lookup_insert_eq. by eapply lookup_lt_Some.
    + exists e'. by rewrite list_lookup_insert_ne.
  - rewrite length_insert in Hx. lia.
Qed.

(** Whatever the outcome of the attachment, a returning call has constructed
    one executor per plan node with a supported tag, and no executor has
    ceased to be live. *)
Lemma BuildExecutorTree_grown plan (param_list : ParamListInfo)
    (txn : Transaction) :
  ∀ root s root' s',
    BuildExecutorTree BuildParams root plan param_list txn s = Done (root', s') →
    grown_by (supported_count plan) (executors s) (executors s').
Proof.
  induction plan as [|ty cs IH] using AbstractPlan_nested_ind;
    intros root s root' s' H.
  { injection H as <- <-. apply grown_by_refl. }
  rewrite BuildExecutorTree_node in H.
  apply bind_inv in H as (ctx & sc & Hctx & H). injection Hctx as <- <-.
  apply bind_inv in H as (ce & se & Hce & H).
  apply bind_inv in H as (root1 & sa & Hroot & H).
  apply bind_inv in H as (ce' & sl & Hloop & H). injection H as <- <-.
  assert (grown_by (match executor_for ty with Some _ => 1 | None => 0 end)
                   (executors s) (executors se)) as Hse.
  { destruct (executor_for ty); injection Hce as <- <-; cbn.
    - apply grown_by_new.
    - apply grown_by_refl. }
  assert (grown_by 0 (executors se) (executors sa)) as Hsa.
  { destruct ce; [destruct root|].
    - apply bind_inv in Hroot as ([] & sx & Hadd & Hret).
      injection Hret as <- <-. by eapply AddChild_grown.
    - injection Hroot as <- <-. apply grown_by_refl.
    - injection Hroot as <- <-. apply grown_by_refl. }
  assert (∀ ce0 s0 ce1 s1,
    for_each_acc
      (λ child_executor child,
         BuildExecutorTree BuildParams child_executor child param_list txn)
      cs ce0 s0 = Done (ce1, s1) →
    grown_by (foldr (λ c n, supported_count c + n) 0 cs)
             (executors s0) (executors s1)) as Hall.
  { clear -IH. induction IH as [|c cs Hc _ IHcs]; intros ce0 s0 ce1 s1 H.
    - injection H as <- <-. apply grown_by_refl.
    - cbn [for_each_acc] in H. apply bind_inv in H as (ce2 & s2 & Hstep & H).
      cbn [foldr]. eapply grown_by_trans; [by eapply Hc|by eapply IHcs]. }
  cbn [supported_count].
  eapply grown_by_trans; [|by eapply Hall].
  replace (match executor_for ty with Some _ => 1 | None => 0 end)
    with (match executor_for ty with Some _ => 1 | None => 0 end + 0) by lia.
  eapply grown_by_trans; [exact Hse|exact Hsa].
Qed.

(** X1: [BuildExecutorTree] called with a live [root] returns that same
    [root]; it deletes nothing, leaves every other executor that existed as
    it was, and changes [root] only by appending the executor constructed
    for the plan's root, if one is constructed, to its children. *)
Theorem BuildExecutorTree_keeps_root plan (param_list : ParamListInfo)
    (txn : Transaction) r e s :
  executors s !! r = Some (Some e) →
  ∃ s',
    BuildExecutorTree BuildParams (Some r) plan param_list txn s
    = Done (Some r, s')
    ∧ deleted s' = deleted s
    ∧ (∀ a, a < length (executors s) → a ≠ r →
            executors s' !! a = executors s !! a)
    ∧ executors s' !! r
      = Some (Some (with_children e
                      (children_ e
                       ++ match head_executor plan with
                          | Some _ => [Some (length (executors s))]
                          | None => []
                          end))).
Proof.
  intros He.
  destruct (BuildExecutorTree_post BuildParams plan param_list txn (Some r) s)
    as (root' & s' & Hrun & _ & Hdel & Hhead).
  { by exists e. }
  assert (r < length (executors s)) as Hr by by eapply lookup_lt_Some.
  destruct (head_executor plan).
  - destruct Hhead as ([_ Hsame] & t & _ & _ & _ & _ & _ & -> & ex & Hex & He').
    rewrite He in Hex. injection Hex as <-.
    exists s'. split; [done|]. split; [done|]. split; [|done].
    intros a Ha Hne. apply Hsame; [done|congruence].
  - destruct Hhead as (-> & [_ Hsame]).
    exists s'. split; [done|]. split; [done|]. split.
    + intros a Ha _. by apply Hsame.
    + rewrite app_nil_r, with_children_same, Hsame; done.
Qed.

(** X2: when an executor is constructed for the plan's root,
    [BuildExecutorTree(nullptr, plan)] returns a new executor, at the first
    free address, which is the root of a tree without sharing that mirrors
    the plan up to the nodes with an unsupported tag: such a node and
    everything below it have no counterpart in the tree. *)
Theorem BuildExecutorTree_prunes_unsupported plan (param_list : ParamListInfo)
    (txn : Transaction) s :
  is_Some (head_executor plan) →
  ∃ s' t,
    BuildExecutorTree BuildParams None plan param_list txn s
    = Done (Some (tree_addr t), s')
    ∧ tree_addr t = length (executors s)
    ∧ tree_in (executors s') t
    ∧ compiles_to plan t
    ∧ NoDup (tree_addrs t)
    ∧ tree_size t = pruned_size plan
    ∧ (∀ a, a < length (executors s) → executors s' !! a = executors s !! a).
Proof.
  intros [K HK].
  destruct (BuildExecutorTree_post BuildParams plan param_list txn None s I)
    as (root' & s' & Hrun & _ & _ & Hhead).
  rewrite HK in Hhead.
  destruct Hhead as ([_ Hsame] & t & Hta & Htin & Htc & _ & Hnd & ->).
  exists s', t. rewrite Hta. split; [done|]. split; [done|]. split; [done|].
  split; [done|]. split; [done|]. split; [by apply compiles_to_pruned_size|].
  intros a Ha. by apply Hsame.
Qed.

(** X3: [BuildExecutorTree] constructs one executor for every plan node with
    a supported tag, wherever the node lies, and deletes none; under a root
    with an unsupported tag it returns [nullptr] all the same, so that the
    executors constructed for the nodes below are live in the store with no
    pointer to them handed back. *)
Theorem BuildExecutorTree_constructs_supported plan
    (param_list : ParamListInfo) (txn : Transaction) s :
  ∃ root' s',
    BuildExecutorTree BuildParams None plan param_list txn s = Done (root', s')
    ∧ length (executors s') = length (executors s) + supported_count plan
    ∧ deleted s' = deleted s
    ∧ (head_executor plan = None → root' = None)
    ∧ (∀ a, length (executors s) ≤ a < length (executors s') →
            ∃ e, executors s' !! a = Some (Some e)).
Proof.
  destruct (BuildExecutorTree_post BuildParams plan param_list txn None s I)
    as (root' & s' & Hrun & _ & Hdel & Hhead).
  destruct (BuildExecutorTree_grown _ _ _ _ _ _ _ Hrun) as [Hlen Hlive].
  exists root', s'. split; [done|]. split; [done|]. split; [done|].
  split. { intros HK. rewrite HK in Hhead. by destruct Hhead. }
  intros a [Hge Hlt]. apply Hlive; [done|by right].
Qed.
End further_build.

(** ** More on [AddMaterialization] and [CleanExecutorTree] *)

Section further_store.
Context {Transaction ValueArray : Type}.
Implicit Types s : Store Transaction ValueArray.

(** X4: [AddMaterialization] cannot be applied to its own result.  At a root
    whose tag makes it wrap, the executor it returns has no plan node, and a
    second call reads the tag through that null plan pointer; at any other
    root the second call returns the root again and changes nothing. *)
Theorem AddMaterialization_twice s a e ty cs :
  executors s !! a = Some (Some e) →
  node_ e = PlanNode ty cs →
  bind (AddMaterialization (Some a)) AddMaterialization s
  = if decide (ty ∈ materialized_tags)
    then Crash NullDereference
    else Done (Some a, s).
Proof.
  intros He Hn. rewrite bind_run, (AddMaterialization_run s a e ty cs He Hn).
  pose proof (needs_materialization_tags ty) as Htags.
  destruct (needs_materialization ty) eqn:Hneed.
  - rewrite decide_True by by apply Htags.
    unfold AddMaterialization, GetRawNode, deref. rewrite !bind_run.
    cbn [executors]. by rewrite list_lookup_middle.
  - rewrite decide_False by (intros H%Htags; done).
    by rewrite (AddMaterialization_run s a e ty cs He Hn), Hneed.
Qed.

(** X5: [CleanExecutorTree] cannot be run twice on a tree: the first run
    deletes the root, and the second run reads the children of the deleted
    root. *)
Theorem CleanExecutorTree_twice fuel fuel' s t :
  tree_in (executors s) t →
  NoDup (tree_addrs t) →
  tree_height t ≤ fuel →
  bind (CleanExecutorTree fuel (Some (tree_addr t)))
       (λ _, CleanExecutorTree (S fuel') (Some (tree_addr t))) s
  = Crash InvalidPointer.
Proof.
  intros Hin Hnd Hh.
  destruct (CleanExecutorTree_tree t fuel s Hin Hnd Hh)
    as (s' & Hrun & _ & _ & _ & Hnone & _).
  rewrite bind_run, Hrun, CleanExecutorTree_step.
  unfold GetChildren, deref. rewrite !bind_run, Hnone; [done|].
  destruct t as [a e ts]. rewrite tree_addrs_node. cbn. left.
Qed.
End further_store.

(** ** [PrintPlan] *)

Lemma append_assoc (s1 s2 s3 : string) : (s1 +:+ s2) +:+ s3 = s1 +:+ s2 +:+ s3.
Proof.
  induction s1 as [|c s1 IH]; [reflexivity|].
  change (String c ((s1 +:+ s2) +:+ s3) = String c (s1 +:+ s2 +:+ s3)).
  by f_equal.
Qed.

(** X6: [PrintPlan] logs one line per plan node, and nothing for [nullptr];
    the line of a node carries the caller's prefix followed by two spaces for
    every level from the root down to the node. *)
Theorem PrintPlan_lines plan (prefix : string) :
  length (PrintPlan plan prefix) = plan_size plan
  ∧ Forall (λ line, ∃ k, 1 ≤ k ≤ plan_height plan
                         ∧ line.1 = prefix +:+ indent k)
           (PrintPlan plan prefix).
Proof.
  revert prefix.
  induction plan as [|ty cs IH] using AbstractPlan_nested_ind; intros prefix.
  { split; [done|constructor]. }
  cbn [PrintPlan plan_size plan_height length]. split.
  - f_equal. induction IH as [|c cs Hc _ IHcs]; [done|].
    cbn. rewrite length_app, (proj1 (Hc _)), IHcs. done.
  - constructor.
    { exists 1. split; [lia|]. done. }
    induction IH as [|c cs Hc _ IHcs]; [constructor|].
    cbn [mbind list_bind foldr]. apply Forall_app. split.
    + eapply Forall_impl; [apply (proj2 (Hc _))|].
      intros line (k & Hk & ->). exists (S k). split; [lia|].
      by rewrite append_assoc.
    + eapply Forall_impl; [exact IHcs|].
      intros line (k & Hk & ->). exists k. split; [lia|done].
Qed.

(** ** More on [ExecutePlan] *)

Lemma all_supported_counts plan :
  all_supported plan = true →
  supported_count plan = plan_size plan ∧ pruned_size plan = plan_size plan.
Proof.
  induction plan as [|ty cs IH] using AbstractPlan_nested_ind; [done|].
  cbn [all_supported supported_count pruned_size plan_size].
  intros [[K HK]%bool_decide_eq_true Hcs]%andb_true_iff. rewrite HK.
  assert (foldr (λ c n, supported_count c + n) 0 cs
          = foldr (λ c n, plan_size c + n) 0 cs
          ∧ foldr (λ c n, pruned_size c + n) 0 cs
            = foldr (λ c n, plan_size c + n) 0 cs) as [-> ->]; [|done].
  induction IH as [|c cs Hc _ IHcs]; [done|].
  cbn [forallb] in Hcs. apply andb_true_iff in Hcs as [Hc' Hcs].
  cbn [foldr]. destruct (Hc Hc') as [-> ->]. destruct (IHcs Hcs) as [-> ->].
  done.
Qed.

(** A list of distinct numbers of [lo, lo + n) that has [n] elements has
    them all. *)
Lemma range_covered (l : list nat) lo n :
  NoDup l → Forall (λ a, lo ≤ a < lo + n) l → length l = n →
  ∀ a, lo ≤ a < lo + n → a ∈ l.
Proof.
  intros Hnd Hin Hlen a Ha.
  assert (l ⊆+ seq lo n) as Hsub.
  { apply NoDup_submseteq; [done|]. intros x Hx. apply elem_of_seq.
    rewrite Forall_forall in Hin. by apply Hin. }
  apply submseteq_length_Permutation in Hsub; [|rewrite length_seq; lia].
  rewrite Hsub. by apply elem_of_seq.
Qed.

Section further_compile.
Context {Transaction ParamListInfo ValueArray : Type}.
Variable BuildParams : ParamListInfo → ValueArray.
Implicit Types s : Store Transaction ValueArray.

(** Lines 242-247 for a plan with a supported root, with the accounts of what
    was constructed and what the tree holds. *)
Lemma compile_accounting plan (param_list : ParamListInfo) (txn : Transaction) s :
  is_Some (head_executor plan) →
  ∃ s' t,
    bind (BuildExecutorTree BuildParams None plan param_list txn)
         AddMaterialization s = Done (Some (tree_addr t), s')
    ∧ tree_in (executors s') t
    ∧ NoDup (tree_addrs t)
    ∧ tree_within (length (executors s)) (length (executors s')) t
    ∧ tree_size t = pruned_size plan + materialization_count plan
    ∧ grown_by (supported_count plan + materialization_count plan)
               (executors s) (executors s')
    ∧ deleted s' = deleted s
    ∧ (∀ a, a < length (executors s) → executors s' !! a = executors s !! a).
Proof.
  intros [K HK].
  destruct (BuildExecutorTree_post BuildParams plan param_list txn None s I)
    as (root1 & s1 & Hrun & _ & Hdel & Hhead).
  pose proof (BuildExecutorTree_grown BuildParams _ _ _ _ _ _ _ Hrun) as Hgrown.
  rewrite HK in Hhead.
  destruct Hhead as ([Hlen Hsame] & t & Hta & Htin & Htc & Htw & Hnd & ->).
  rewrite bind_run, Hrun.
  destruct plan as [|ty cs]; [done|].
  destruct t as [a e ts]. cbn [tree_addr] in Hta. subst a.
  pose proof Htin as (He & _)%tree_in_node.
  pose proof Htc as (_ & Hnode & _). cbn [tree_executor] in Hnode.
  rewrite (AddMaterialization_run s1 _ e ty cs He Hnode).
  pose proof (compiles_to_pruned_size _ _ Htc) as Hsize.
  pose proof (needs_materialization_tags ty) as Htags.
  unfold materialized_tags in Htags. cbn [materialization_count].
  set (n := length (executors s)) in *.
  pose proof Htw as Htw'. unfold tree_within in Htw'.
  rewrite Forall_forall in Htw'.
  destruct (needs_materialization ty).
  - rewrite decide_True by by apply Htags.
    exists (mkStore (executors s1 ++ [Some (materialization_over (Some n))])
                    (contexts s1) (deleted s1)),
           (ExecNode (length (executors s1)) (materialization_over (Some n))
                     [ExecNode n e ts]).
    split; [done|]. cbn [executors deleted].
    split.
    { apply tree_in_node. split; [by apply list_lookup_middle|].
      split; [done|]. constructor; [|done].
      eapply tree_in_frame; [|exact Htin]. intros x Hx.
      apply lookup_app_l. by apply Htw'. }
    split.
    { rewrite tree_addrs_node. cbn [mbind list_bind]. rewrite app_nil_r.
      constructor; [|done]. intros Hx. specialize (Htw' _ Hx). lia. }
    split.
    { unfold tree_within. rewrite tree_addrs_node. cbn [mbind list_bind].
      rewrite app_nil_r, length_app. cbn [length]. constructor; [lia|].
      apply Forall_forall. intros x Hx. specialize (Htw' _ Hx). lia. }
    split. { cbn [tree_size foldr] in *. lia. }
    split. { eapply grown_by_trans; [exact Hgrown|apply grown_by_new]. }
    split; [done|].
    intros x Hx. rewrite lookup_app_l by lia. by apply Hsame.
  - rewrite decide_False by (intros Hty%Htags; done).
    exists s1, (ExecNode n e ts). split; [done|]. split; [done|].
    split; [done|]. split; [done|]. split; [lia|].
    split. { by rewrite !Nat.add_0_r. }
    split; [done|]. intros x Hx. by apply Hsame.
Qed.
End further_compile.

Lemma pruned_size_le plan : pruned_size plan ≤ plan_size plan.
Proof.
  induction plan as [|ty cs IH] using AbstractPlan_nested_ind; [done|].
  cbn [pruned_size plan_size]. destruct (executor_for ty); [|lia].
  apply le_n_S. induction IH as [|c cs Hc _ IHcs]; cbn; lia.
Qed.

Lemma materialization_count_le plan : materialization_count plan ≤ 1.
Proof. destruct plan as [|ty cs]; cbn; [lia|]. case_decide; lia. Qed.

Section further_driver.
Context {ParamListInfo ValueArray Tuple Slot TupleDesc OpState : Type}.
Variable BuildParams : ParamListInfo → ValueArray.
Variable GetPostgresTuple : Tuple → TupleDesc → option Slot.
Variable executor_Init :
  Store TransactionPtr ValueArray → nat → OpState → Result →
  bool * OpState * Result.
Variable executor_Execute :
  Store TransactionPtr ValueArray → nat → OpState → Result →
  bool * OpState * Result.
Variable executor_GetOutput :
  Store TransactionPtr ValueArray → nat → OpState →
  option (LogicalTile Tuple) * OpState.
Implicit Types w : World (ValueArray := ValueArray) (Tuple := Tuple)
                         (OpState := OpState).
Implicit Types pstatus : Peloton_Status Slot.

Local Abbreviation ExecutePlan' :=
  (ExecutePlan BuildParams GetPostgresTuple executor_Init executor_Execute
               executor_GetOutput).
Local Abbreviation pull_loop' :=
  (pull_loop GetPostgresTuple executor_Execute executor_GetOutput).

Lemma GetOutput_run w a e :
  executors (store w) !! a = Some (Some e) →
  GetOutput executor_GetOutput (Some a) w
  = Done ((executor_GetOutput (store w) a (op_state w)).1,
          mkWorld (store w) (txn_manager w)
            (executor_GetOutput (store w) a (op_state w)).2
            (executor_calls w
             ++ [GetOutput_call (executor_GetOutput (store w) a (op_state w)).1])).
Proof.
  intros He. unfold GetOutput. rewrite bind_run, on_store_run. unfold deref.
  rewrite He, world_eta, bind_run. cbn [get].
  by destruct (executor_GetOutput (store w) a (op_state w)) as [tile o].
Qed.

(** The steps of a call that returns. *)
Lemma ExecutePlan_inv fuel plan (param_list : ParamListInfo)
    (tuple_desc : TupleDesc) pstatus txn_id w st w' :
  plan ≠ null_plan →
  ExecutePlan' fuel plan param_list tuple_desc pstatus txn_id w = Done (st, w') →
  ∃ executor_tree s1 status w2 slots s',
    bind (BuildExecutorTree BuildParams None plan param_list (Some txn_id))
         AddMaterialization (store w) = Done (executor_tree, s1)
    ∧ Init executor_Init executor_tree (Some txn_id)
        (mkWorld s1 (after_lookup w txn_id) (op_state w) (executor_calls w))
      = Done (status, w2)
    ∧ (if status
       then ∃ w3, pull_loop' fuel executor_tree (Some txn_id) tuple_desc [] w2
                  = Done (slots, w3)
       else slots = m_result_slots pstatus)
    ∧ CleanExecutorTree fuel executor_tree s1 = Done (tt, s')
    ∧ store w' = s'
    ∧ m_result_slots st = slots.
Proof.
  intros Hplan H. destruct plan as [|ty cs]; [done|].
  unfold ExecutePlan in H. rewrite bind_run in H.
  destruct (compile_total BuildParams (PlanNode ty cs) param_list (Some txn_id)
              (store w)) as (tree0 & s1 & Hc & _ & _).
  rewrite (ExecutePlan_setup_run _ _ _ _ _ _ _ Hc) in H.
  unfold ExecutePlan_run in H. rewrite bind_run in H.
  destruct (Init executor_Init tree0 (Some txn_id) _) as [[status w2]|] eqn:HI;
    [|done].
  exists tree0, s1, status, w2.
  pose proof HI as HI'.
  apply Init_inv in HI' as (a & ? & e & r & -> & [= <-] & He & Hr & Hst & Hw2).
  assert (store w2 = s1) as Hs2 by by rewrite Hw2.
  destruct status; cbn [negb] in H.
  - rewrite bind_run in H.
    destruct (pull_loop' fuel (Some a) (Some txn_id) tuple_desc [] w2)
      as [[slots w3]|] eqn:HP; [|done].
    pose proof HP as HP'.
    apply pull_loop_inv in HP' as (_ & _ & _ & _ & _ & Hs3 & _).
    apply cleanup_inv in H as (? & r' & s' & [= <-] & Hr' & Hclean & -> & ->).
    exists slots, s'. split; [done|]. split; [done|].
    split; [by exists w3|]. rewrite Hs3, Hs2 in Hclean. done.
  - rewrite bind_run in H.
    assert (is_Some (txn_result w2 txn_id)) as [r2 Hr2].
    { rewrite Hw2, after_call_result. by eexists. }
    rewrite (SetResult_run w2 txn_id _ RESULT_FAILURE Hr2) in H.
    apply cleanup_inv in H as (? & r' & s' & [= <-] & Hr' & Hclean & -> & ->).
    exists (m_result_slots pstatus), s'. cbn [store] in Hclean.
    rewrite Hs2 in Hclean. done.
Qed.

(** What is constructed and what is deleted by a call that returns. *)
Lemma ExecutePlan_accounting fuel plan (param_list : ParamListInfo)
    (tuple_desc : TupleDesc) pstatus txn_id w st w' :
  is_Some (head_executor plan) →
  S (plan_size plan) ≤ fuel →
  ExecutePlan' fuel plan param_list tuple_desc pstatus txn_id w = Done (st, w') →
  ∃ order,
    deleted (store w') = deleted (store w) ++ order
    ∧ NoDup order
    ∧ length order = pruned_size plan + materialization_count plan
    ∧ Forall (λ a, length (executors (store w)) ≤ a
                   < length (executors (store w'))) order
    ∧ length (executors (store w'))
      = length (executors (store w))
        + (supported_count plan + materialization_count plan)
    ∧ (∀ a, a < length (executors (store w)) →
            executors (store w') !! a = executors (store w) !! a)
    ∧ (∀ a, length (executors (store w)) ≤ a < length (executors (store w')) →
            if decide (a ∈ order)
            then executors (store w') !! a = Some None
            else ∃ e, executors (store w') !! a = Some (Some e)).
Proof.
  intros Hhead Hfuel H.
  assert (plan ≠ null_plan) as Hplan by (intros ->; by destruct Hhead).
  apply ExecutePlan_inv in H
    as (tree & s1 & status & w2 & slots & s' & Hc & _ & _ & Hclean & <- & _);
    [|done].
  destruct (compile_accounting BuildParams plan param_list (Some txn_id)
              (store w) Hhead)
    as (s1' & t & Hc' & Htin & Hnd & Htw & Hsize & [Hlen Hlive] & Hdel & Hold).
  rewrite Hc in Hc'. injection Hc' as -> <-.
  destruct (CleanExecutorTree_tree t fuel s1 Htin Hnd)
    as (s'' & Hclean' & Hdel' & _ & Hlen' & Hnone & Hsame).
  { pose proof (tree_height_le_size t). pose proof (pruned_size_le plan).
    pose proof (materialization_count_le plan). lia. }
  rewrite Hclean in Hclean'. injection Hclean' as <-.
  pose proof (postorder_perm t) as Hperm.
  unfold tree_within in Htw. rewrite Forall_forall in Htw.
  exists (postorder t). split; [congruence|].
  split. { by rewrite Hperm. }
  split. { by rewrite Hperm, tree_addrs_length. }
  split. { apply Forall_forall. intros a Ha. rewrite Hperm in Ha.
           rewrite Hlen'. by apply Htw. }
  split; [lia|]. split.
  - intros a Ha. rewrite Hsame; [by apply Hold|].
    intros Hin. specialize (Htw _ Hin). lia.
  - intros a [Hge Hlt]. rewrite Hlen' in Hlt. case_decide as Hin.
    + apply Hnone. by rewrite <-Hperm.
    + rewrite Hsame by by rewrite <-Hperm. apply Hlive; [done|by right].
Qed.

(** X7: on a plan whose root has an unsupported tag [ExecutePlan] calls
    [Init] through a null pointer, whatever lies below the root: it does
    not return. *)
Theorem ExecutePlan_unsupported_root fuel plan (param_list : ParamListInfo)
    (tuple_desc : TupleDesc) pstatus txn_id w :
  plan ≠ null_plan →
  head_executor plan = None →
  ExecutePlan BuildParams GetPostgresTuple executor_Init executor_Execute
    executor_GetOutput fuel plan param_list tuple_desc pstatus txn_id w
  = Crash NullDereference.
Proof.
  intros Hplan Hhead.
  destruct (compile_total BuildParams plan param_list (Some txn_id) (store w))
    as (tree0 & s1 & Hc & _ & Htree).
  rewrite Hhead in Htree. subst tree0.
  destruct plan as [|ty cs]; [done|]. unfold ExecutePlan.
  rewrite bind_run, (ExecutePlan_setup_run _ _ _ _ _ _ _ Hc).
  reflexivity.
Qed.

(** X8: a call that returns has deleted exactly the executors of the tree it
    compiled, each once: as many as plan nodes are reached from the root
    through supported nodes, and the materialization if one was added.  The
    executors it constructed for supported nodes that lie below an
    unsupported node are still live on return, and the executors that
    existed before the call are as they were. *)
Theorem ExecutePlan_deletes_compiled_tree fuel plan (param_list : ParamListInfo)
    (tuple_desc : TupleDesc) pstatus txn_id w st w' :
  is_Some (head_executor plan) →
  S (plan_size plan) ≤ fuel →
  ExecutePlan BuildParams GetPostgresTuple executor_Init executor_Execute
    executor_GetOutput fuel plan param_list tuple_desc pstatus txn_id w
  = Done (st, w') →
  ∃ order,
    deleted (store w') = deleted (store w) ++ order
    ∧ NoDup order
    ∧ length order = pruned_size plan + materialization_count plan
    ∧ length (executors (store w'))
      = length (executors (store w))
        + (supported_count plan + materialization_count plan)
    ∧ (∀ a, a < length (executors (store w)) →
            executors (store w') !! a = executors (store w) !! a)
    ∧ (∀ a, length (executors (store w)) ≤ a < length (executors (store w')) →
            if decide (a ∈ order)
            then executors (store w') !! a = Some None
            else ∃ e, executors (store w') !! a = Some (Some e)).
Proof.
  intros Hhead Hfuel H.
  destruct (ExecutePlan_accounting _ _ _ _ _ _ _ _ _ Hhead Hfuel H)
    as (order & Hdel & Hnd & Hlen & _ & Hex & Hold & Hnew).
  by exists order.
Qed.

(** X9: on a plan whose tags are all supported, a call that returns leaves
    no executor behind: every executor it constructed, one per plan node and
    the materialization if one was added, is deleted on return. *)
Theorem ExecutePlan_supported_plan_no_leak fuel plan
    (param_list : ParamListInfo) (tuple_desc : TupleDesc) pstatus txn_id w
    st w' :
  all_supported plan = true →
  S (plan_size plan) ≤ fuel →
  ExecutePlan BuildParams GetPostgresTuple executor_Init executor_Execute
    executor_GetOutput fuel plan param_list tuple_desc pstatus txn_id w
  = Done (st, w') →
  length (executors (store w'))
  = length (executors (store w)) + (plan_size plan + materialization_count plan)
  ∧ ∀ a, length (executors (store w)) ≤ a < length (executors (store w')) →
         executors (store w') !! a = Some None.
Proof.
  intros Hall Hfuel H.
  destruct (all_supported_counts plan Hall) as [Hsc Hps].
  assert (is_Some (head_executor plan)) as Hhead.
  { destruct plan as [|ty cs]; [done|]. cbn in Hall |- *.
    by apply andb_true_iff in Hall as [?%bool_decide_eq_true _]. }
  destruct (ExecutePlan_accounting _ _ _ _ _ _ _ _ _ Hhead Hfuel H)
    as (order & Hdel & Hnd & Hlen & Hin & Hex & Hold & Hnew).
  rewrite Hsc in Hex. rewrite Hps in Hlen. split; [done|].
  intros a Ha. specialize (Hnew a Ha).
  rewrite decide_True in Hnew; [done|].
  eapply (range_covered order (length (executors (store w)))
            (plan_size plan + materialization_count plan)); [done| |done|lia].
  eapply Forall_impl; [exact Hin|]. intros x Hx. cbn in Hx. lia.
Qed.

(** X10: when [Init] returns true and the pull loop returns, [ExecutePlan]
    returns: the rows of the status are replaced by the rows the loop
    gathered, the Result reported is the one recorded on the transaction
    after the last pull, the transaction is committed or aborted by that
    Result if it was started by this call and left alone otherwise, and the
    executor tree is torn down, children first. *)
Theorem ExecutePlan_success_path fuel plan (param_list : ParamListInfo)
    (tuple_desc : TupleDesc) pstatus txn_id w
    single_statement_txn txn executor_tree w1 w2 slots w3 :
  ExecutePlan_setup BuildParams plan param_list txn_id w
  = Done ((single_statement_txn, txn, executor_tree), w1) →
  Init executor_Init executor_tree txn w1 = Done (true, w2) →
  pull_loop GetPostgresTuple executor_Execute executor_GetOutput fuel
    executor_tree txn tuple_desc [] w2 = Done (slots, w3) →
  plan ≠ null_plan →
  S (plan_size plan) ≤ fuel →
  ∃ w' r t,
    ExecutePlan BuildParams GetPostgresTuple executor_Init executor_Execute
      executor_GetOutput fuel plan param_list tuple_desc pstatus txn_id w
    = Done (mkStatus r slots, w')
    ∧ txn_result w3 txn_id = Some r
    ∧ txn_result w' txn_id = Some r
    ∧ executor_calls w' = executor_calls w3
    ∧ events w'
      = events w1
        ++ (if single_statement_txn
            then [match r with
                  | RESULT_SUCCESS => CommitTransaction_call txn_id
                  | _ => AbortTransaction_call txn_id
                  end]
            else [])
    ∧ executor_tree = Some (tree_addr t)
    ∧ tree_in (executors (store w1)) t
    ∧ deleted (store w') = deleted (store w) ++ postorder t
    ∧ (∀ x, x ∈ tree_addrs t → executors (store w') !! x = Some None).
Proof.
  intros Hsetup Hinit Hpull Hplan Hfuel.
  destruct (compile_total BuildParams plan param_list (Some txn_id) (store w))
    as (tree0 & s1 & Hc & Hdel & Hhead).
  rewrite (ExecutePlan_setup_run _ _ _ _ _ _ _ Hc) in Hsetup.
  injection Hsetup as <- <- <- <-.
  pose proof Hinit as Hinit'.
  apply Init_inv in Hinit' as (a & ? & e & r0 & -> & [= <-] & He & Hr0 & _ & Hw2).
  destruct (head_executor plan); [|done].
  destruct Hhead as (t & [= ->] & Htin & Hnd & Hsize).
  pose proof Hpull as Hpull'.
  apply pull_loop_inv in Hpull' as (tiles & _ & _ & _ & _ & Hs3 & Hev3 & Hres3).
  destruct (Hres3 txn_id eq_refl) as [r Hr].
  assert (store w3 = s1) as Hs3' by by rewrite Hs3, Hw2.
  destruct (CleanExecutorTree_tree t fuel s1 Htin Hnd)
    as (s' & Hclean & Hdel' & _ & _ & Hnone & _).
  { pose proof (tree_height_le_size t). lia. }
  eexists _, r, t. split.
  { destruct plan as [|ty cs]; [done|]. unfold ExecutePlan.
    rewrite bind_run, (ExecutePlan_setup_run _ _ _ _ _ _ _ Hc).
    unfold ExecutePlan_run. rewrite bind_run, Hinit. cbn [negb].
    rewrite bind_run, Hpull.
    erewrite cleanup_run; [reflexivity|exact Hr|by rewrite Hs3']. }
  cbn [store executor_calls]. split; [done|].
  split. { exact Hr. }
  split; [done|].
  split.
  { unfold events in *. cbn [txn_manager txn_events]. rewrite Hev3, Hw2.
    unfold finalization. rewrite orb_false_r. cbn [after_call txn_manager txn_events].
    destruct (bool_decide _); [by destruct r|by rewrite app_nil_r]. }
  split; [done|]. split; [done|]. split; [congruence|done].
Qed.

(** X11: the pull loop has no bound of its own.  With operators whose
    [Execute] always returns true, and whose batches are null or have a base
    tile, the loop does not return, whatever bound the model is given. *)
Theorem pull_loop_unbounded fuel a e txn_id r (tuple_desc : TupleDesc)
    (slots : list Slot) w :
  (∀ s x o r', (executor_Execute s x o r').1.1 = true) →
  (∀ s x o, has_base_tile (executor_GetOutput s x o).1) →
  executors (store w) !! a = Some (Some e) →
  txn_result w txn_id = Some r →
  pull_loop GetPostgresTuple executor_Execute executor_GetOutput fuel
    (Some a) (Some txn_id) tuple_desc slots w
  = Crash OutOfFuel.
Proof.
  intros Hexec Hbase. revert r slots w.
  induction fuel as [|fuel IH]; intros r slots w He Hr; [done|].
  rewrite pull_loop_step, bind_run, (Execute_run _ _ _ _ _ _ He Hr), Hexec.
  cbn [negb]. rewrite bind_run.
  erewrite GetOutput_run; [|exact He].
  set (w1 := after_call w txn_id _ _ _).
  specialize (Hbase (store w1) a (op_state w1)).
  destruct (executor_GetOutput (store w1) a (op_state w1)) as [[tile|] o];
    cbn [fst snd] in *.
  - destruct Hbase as [base_tile Hb]. cbn zeta. rewrite Hb, bind_run.
    cbn [assert_ptr ret].
    eapply IH; [exact He|]. unfold txn_result. cbn. apply lookup_insert_eq.
  - eapply IH; [exact He|]. unfold txn_result. cbn. apply lookup_insert_eq.
Qed.
End further_driver.

(** ** The further results on the worked examples *)

(** X1 on [scan_store]: a projection compiled under the materialization at
    address 1. *)
Lemma BuildExecutorTree_keeps_root_witness :
  ∃ s',
    BuildExecutorTree BuildParams (Some 1)
      (PlanNode PLAN_NODE_TYPE_PROJECTION []) tt (Some 7%N) scan_store
    = Done (Some 1, s')
    ∧ deleted s' = []
    ∧ executors s' !! 0 = Some (Some scan_executor)
    ∧ executors s' !! 1
      = Some (Some (with_children (materialization_over (Some 0))
                                  [Some 0; Some 2])).
Proof.
  destruct (BuildExecutorTree_keeps_root BuildParams
              (PlanNode PLAN_NODE_TYPE_PROJECTION []) tt (Some 7%N) 1
              (materialization_over (Some 0)) scan_store eq_refl)
    as (s' & Hrun & Hdel & Hsame & Hroot).
  exists s'. split; [exact Hrun|]. split; [exact Hdel|]. split; [|exact Hroot].
  rewrite Hsame; [reflexivity|cbn; lia|lia].
Defined.

(** X2 on [gap_plan]: the tree is the limit alone. *)
Lemma BuildExecutorTree_prunes_unsupported_witness :
  is_Some (head_executor gap_plan)
  ∧ ∃ s' t,
      BuildExecutorTree BuildParams None gap_plan tt (Some 7%N) empty_store
      = Done (Some (tree_addr t), s')
      ∧ tree_addr t = 0
      ∧ tree_in (executors s') t
      ∧ compiles_to gap_plan t
      ∧ tree_size t = 1.
Proof.
  assert (is_Some (head_executor gap_plan)) as Hhead by (by eexists).
  split; [exact Hhead|].
  destruct (BuildExecutorTree_prunes_unsupported BuildParams gap_plan tt
              (Some 7%N) empty_store Hhead)
    as (s' & t & Hrun & Hta & Htin & Htc & _ & Hsize & _).
  exists s', t. split; [exact Hrun|]. split; [exact Hta|].
  split; [exact Htin|]. split; [exact Htc|exact Hsize].
Defined.

(** X4 on the scan at address 0. *)
Lemma AddMaterialization_twice_witness :
  bind (AddMaterialization (Some 0)) AddMaterialization
    (mkStore [Some scan_executor] [mkContext (Some 7%N) tt] [])
  = Crash NullDereference.
Proof.
  exact (AddMaterialization_twice
           (mkStore [Some scan_executor] [mkContext (Some 7%N) tt] []) 0
           scan_executor PLAN_NODE_TYPE_SEQSCAN [] eq_refl eq_refl).
Defined.

(** X5 on the tree of [scan_store]. *)
Lemma CleanExecutorTree_twice_witness :
  bind (CleanExecutorTree 2 (Some 1)) (λ _, CleanExecutorTree 1 (Some 1))
    scan_store
  = Crash InvalidPointer.
Proof.
  apply (CleanExecutorTree_twice 2 0 scan_store scan_tree).
  - cbn. repeat split.
  - cbn. apply NoDup_cons. split; [|apply NoDup_singleton].
    intros H%list_elem_of_singleton. discriminate H.
  - cbn. lia.
Defined.

(** X7 on an invalid node over a scan. *)
Lemma ExecutePlan_unsupported_root_witness :
  run true (PlanNode PLAN_NODE_TYPE_INVALID [scan]) = Crash NullDereference.
Proof.
  apply (ExecutePlan_unsupported_root BuildParams GetPostgresTuple
           executor_Init_ok executor_Execute executor_GetOutput 10
           (PlanNode PLAN_NODE_TYPE_INVALID [scan]) tt tt status0 7%N
           fresh_world); [done|reflexivity].
Defined.

(** X8 on [gap_plan]: three executors are constructed, the limit and the
    materialization are deleted, the scan below the unsupported node is not. *)
Lemma ExecutePlan_deletes_compiled_tree_witness :
  ∃ st w' order,
    run true gap_plan = Done (st, w')
    ∧ deleted (store w') = order
    ∧ length order = 2
    ∧ length (executors (store w')) = 3
    ∧ ∃ a e, (a ∉ order) ∧ executors (store w') !! a = Some (Some e).
Proof.
  assert (is_Some (head_executor gap_plan)) as Hhead by (by eexists).
  assert (S (plan_size gap_plan) ≤ 10) as Hfuel by (cbn; lia).
  eexists _, _.
  edestruct (ExecutePlan_deletes_compiled_tree BuildParams GetPostgresTuple
               executor_Init_ok executor_Execute executor_GetOutput 10 gap_plan
               tt tt status0 7%N fresh_world)
    as (order & Hdel & _ & Hlen & Hex & _ & _); [exact Hhead|exact Hfuel| |].
  - vm_compute. reflexivity.
  - exists order. split; [vm_compute; reflexivity|]. split; [exact Hdel|].
    split; [exact Hlen|]. split; [exact Hex|].
    exists 1, (mkExecutor SeqScanExecutor scan (Some 2) []).
    split; [|reflexivity].
    cbn in Hdel. subst order. intros H. apply elem_of_cons in H as [H|H].
    + discriminate H.
    + apply list_elem_of_singleton in H. discriminate H.
Defined.

(** X9 on [scan]. *)
Lemma ExecutePlan_supported_plan_no_leak_witness :
  ∃ st w',
    run true scan = Done (st, w')
    ∧ length (executors (store w')) = 2
    ∧ executors (store w') !! 0 = Some None
    ∧ executors (store w') !! 1 = Some None.
Proof.
  eexists _, _.
  edestruct (ExecutePlan_supported_plan_no_leak BuildParams GetPostgresTuple
               executor_Init_ok executor_Execute executor_GetOutput 10 scan
               tt tt status0 7%N fresh_world) as (Hlen & Hnone).
  - reflexivity.
  - cbn. lia.
  - vm_compute. reflexivity.
  - split; [vm_compute; reflexivity|]. split; [exact Hlen|].
    split; apply Hnone; cbn; lia.
Defined.

(** X10 on [scan]. *)
Lemma ExecutePlan_success_path_witness :
  ∃ w' t,
    run true scan = Done (mkStatus RESULT_SUCCESS [1; 2; 3], w')
    ∧ events w'
      = [GetPGTransaction_call 7%N; StartPGTransaction_call 7%N;
         CommitTransaction_call 7%N]
    ∧ Some 1 = Some (tree_addr t)
    ∧ deleted (store w') = postorder t.
Proof.
  edestruct (ExecutePlan_success_path BuildParams GetPostgresTuple
               executor_Init_ok executor_Execute executor_GetOutput 10 scan
               tt tt status0 7%N fresh_world)
    as (w' & r & t & Hrun & Hr & _ & _ & Hev & Htree & _ & Hdel & _).
  - vm_compute. reflexivity.
  - vm_compute. reflexivity.
  - vm_compute. reflexivity.
  - done.
  - cbn. lia.
  - vm_compute in Hr. injection Hr as <-.
    exists w', t. split; [exact Hrun|]. split; [exact Hev|].
    split; [exact Htree|exact Hdel].
Defined.

(** X11 on operators that always have more output and never a batch. *)
Lemma pull_loop_unbounded_witness :
  pull_loop GetPostgresTuple executor_Execute_forever
    executor_GetOutput_nothing 1000 (Some 1) (Some 7%N) tt [] (ready_world 0)
  = Crash OutOfFuel.
Proof.
  apply (pull_loop_unbounded GetPostgresTuple executor_Execute_forever
           executor_GetOutput_nothing 1000 1 (materialization_over (Some 0))
           7%N RESULT_SUCCESS tt [] (ready_world 0)).
  - reflexivity.
  - intros s x o. exact I.
  - reflexivity.
  - reflexivity.
Defined.
